(** * mkdocs-click: the markdown generator of [mkdocs_click/parser.py]

    A shallow embedding of the parser module: the loader of the click
    command, the four fragment builders, the subcommand enumeration and the
    recursive walk over the command tree, followed by the properties of the
    generated markdown.

    Conventions of the embedding.
    - A Python [str] is a [string]: one [ascii] per code point, so the
      model covers the code points 0..255.  [String.compare] orders
      strings as Python does (lexicographically by code point).
    - A raised exception is the [Err] side of [Result].
    - click and the interpreter are not part of the module; what the
      module asks of them is gathered in the class [Runtime]. *)

From Stdlib Require Import ZArith Ascii String List Sorted Permutation Lia Bool.
From Stdlib Require Import OrderedTypeEx.
From stdpp Require Import base gmap strings.
Import ListNotations.

#[local] Set Warnings "-register-all".

Local Open Scope string_scope.
Local Open Scope list_scope.
Local Open Scope Z_scope.

(* ===================================================================== *)
(** ** Python strings *)
(* ===================================================================== *)

Module Py.

Definition BS  : ascii := "008"%char.  (* "\b" *)
Definition LF  : ascii := "010"%char.  (* "\n" *)
Definition VT  : ascii := "011"%char.
Definition FF  : ascii := "012"%char.
Definition CR  : ascii := "013"%char.
Definition FS  : ascii := "028"%char.
Definition GS  : ascii := "029"%char.
Definition RS  : ascii := "030"%char.
Definition NEL : ascii := "133"%char.

(** The characters at which [str.splitlines] cuts (among 0..255). *)
Definition is_linebreak (c : ascii) : bool :=
  existsb (Ascii.eqb c) [LF; VT; FF; CR; FS; GS; RS; NEL].

(** [s.splitlines()]: the lines of [s] without their terminators; a
    carriage return directly followed by a line feed is one terminator,
    and no empty line is reported after the last terminator. *)
Fixpoint splitlines (s : string) : list string :=
  match s with
  | EmptyString => []
  | String c s' =>
      if is_linebreak c then
        EmptyString ::
          (if Ascii.eqb c CR then
             match s' with
             | String d s'' => if Ascii.eqb d LF then splitlines s'' else splitlines s'
             | EmptyString => splitlines s'
             end
           else splitlines s')
      else
        match splitlines s' with
        | [] => [String c EmptyString]
        | l :: ls => String c l :: ls
        end
  end.

(** [s.replace(old, "")] for a one-character [old]. *)
Fixpoint remove_char (old : ascii) (s : string) : string :=
  match s with
  | EmptyString => EmptyString
  | String c s' =>
      if Ascii.eqb c old then remove_char old s' else String c (remove_char old s')
  end.

(** [s.rstrip(c)] for a one-character argument. *)
Fixpoint rstrip (c : ascii) (s : string) : string :=
  match s with
  | EmptyString => EmptyString
  | String d s' =>
      match rstrip c s' with
      | EmptyString => if Ascii.eqb d c then EmptyString else String d EmptyString
      | r => String d r
      end
  end.

(** [sep.join(parts)]. *)
Fixpoint join (sep : string) (parts : list string) : string :=
  match parts with
  | [] => EmptyString
  | [p] => p
  | p :: ps => p +:+ sep +:+ join sep ps
  end.

(** [c * n] for a one-character string and an [int]: empty when
    [n <= 0]. *)
Definition repeat_char (c : ascii) (n : Z) : string :=
  string_of_list_ascii (repeat c (Z.to_nat n)).

(** [xs[1:-1]]. *)
Definition slice_1_m1 {A} (xs : list A) : list A := removelast (tl xs).

(** Truthiness of an optional string ([None] and [""] are false). *)
Definition truthy (o : option string) : bool :=
  match o with
  | Some (String _ _) => true
  | _ => false
  end.

(** [a or b] on optional strings. *)
Definition or_ (a b : option string) : option string :=
  if truthy a then a else b.

Definition contains_char (c : ascii) (s : string) : Prop :=
  In c (list_ascii_of_string s).

(** A string that holds none of the characters [splitlines] cuts at. *)
Definition one_line (s : string) : bool :=
  forallb (fun c => negb (is_linebreak c)) (list_ascii_of_string s).

(** The text of the lines [ls], each ended by a newline. *)
Definition written (ls : list string) : string :=
  fold_right (fun l acc => l +:+ String LF acc) EmptyString ls.

End Py.

(* ===================================================================== *)
(** ** Exceptions and results *)
(* ===================================================================== *)

(** The exceptions the statements of the module raise on the inputs the
    model covers: command names that are strings and levels whose header
    fits in a string.  Outside it lie the [OverflowError] of
    ['#' * (level + 1)] at a level beyond the index range and the
    [TypeError] of joining a name that is [None]. *)
Inductive Exception : Type :=
| MKClickConfigException (msg : string)
| ValueError
| KeyError (key : string)
| AssertionError
| RecursionError.

Inductive Result (A : Type) : Type :=
| Ok (a : A)
| Err (e : Exception).
Arguments Ok {A} a.
Arguments Err {A} e.

Definition rbind {A B} (r : Result A) (k : A -> Result B) : Result B :=
  match r with
  | Ok a => k a
  | Err e => Err e
  end.

(* ===================================================================== *)
(** ** The click objects the module reads *)
(* ===================================================================== *)

(** An insertion-ordered dictionary with string keys, as [dict] is. *)
Definition Dict (A : Type) : Type := list (string * A).

Fixpoint dict_set {A} (d : Dict A) (k : string) (v : A) : Dict A :=
  match d with
  | [] => [(k, v)]
  | (k', v') :: d' =>
      if String.eqb k' k then (k', v) :: d' else (k', v') :: dict_set d' k v
  end.

Fixpoint dict_get {A} (d : Dict A) (k : string) : option A :=
  match d with
  | [] => None
  | (k', v') :: d' => if String.eqb k' k then Some v' else dict_get d' k
  end.

Definition dict_keys {A} (d : Dict A) : list string := map fst d.
Definition dict_values {A} (d : Dict A) : list A := map snd d.

#[local] Unset Elimination Schemes.

(** A click command, as far as the generator looks at it.
    - [commands] is the attribute read by [getattr(command, "commands", {})]:
      [None] when the object has no such attribute.
    - [multicommand] is [Some (list_commands, get_command)] exactly when the
      object is an instance of [click.MultiCommand]; the two methods are
      taken not to depend on the context they are handed. *)
Inductive Command : Type :=
  mkCommand {
      name : string;
      help : option string;
      short_help : option string;
      commands : option (list (string * Command));
      multicommand : option (list string * (string -> option Command))
    }.

#[local] Set Elimination Schemes.

(** [click.Context(command, parent=parent)]. *)
Inductive Context : Type :=
  mkContext {
      command : Command;
      parent : option Context
    }.

(** What [getattr(mod, module_name)] can be: a command, or an object of
    another type, known by the text [type(obj)] formats to. *)
Inductive PyObject : Type :=
| ObjCommand (c : Command)
| ObjOther (type_repr : string).

(** The outcome of [__import__] as the handler of [_load_command] sees it:
    an [Exception] was raised (with the text [traceback.format_exc()] then
    returns), [SystemExit] was raised, or the module came back, seen
    through its attribute lookup.  What the handler does not catch
    ([KeyboardInterrupt] and the like) is left out. *)
Inductive ImportOutcome : Type :=
| ImportRaised (format_exc : string)
| ImportSystemExit
| ImportModule (getattr : string -> option PyObject).

(** What the module takes from click and from the interpreter. *)
Class Runtime : Type :=
  {
    (** [__import__(module_path, globals(), locals(), fromlist)] *)
    import_ : string -> list string -> ImportOutcome;
    (** [str(d)] of a configuration mapping *)
    dict_str : gmap string string -> string;
    (** [int(s)]: [None] when it raises [ValueError] *)
    int_of_str : string -> option Z;
    (** the number of nested calls of [_parse_recursively] that fit below
        the interpreter's frame limit; the interpreter counts every frame,
        those of click included, so this is less than
        [sys.getrecursionlimit()] *)
    recursion_limit : nat;
    (** [ctx.command.collect_usage_pieces(ctx)] *)
    collect_usage_pieces : Context -> list string;
    (** [ctx.command_path] *)
    command_path : Context -> string;
    (** the value of a fresh formatter after
        [write_usage(prog, args, prefix=prefix)] *)
    write_usage : string -> string -> string -> string;
    (** the value of a fresh formatter after
        [Command.format_options(ctx.command, ctx, formatter)] *)
    format_options : Context -> string
  }.

(** One effect the module has on its surroundings. *)
Inductive Event : Type :=
| LogInfo (msg : string)
| ImportEvent (module_path : string) (fromlist : list string).

(** A computation that may log, import and raise: it extends the trace of
    events and returns a result or the exception raised. *)
Definition M (A : Type) : Type := list Event -> Result A * list Event.

Definition ret {A} (a : A) : M A := fun tr => (Ok a, tr).
Definition raise {A} (e : Exception) : M A := fun tr => (Err e, tr).
Definition emit (ev : Event) : M unit := fun tr => (Ok tt, tr ++ [ev]).
Definition lift {A} (r : Result A) : M A := fun tr => (r, tr).
Definition bind {A B} (m : M A) (k : A -> M B) : M B :=
  fun tr =>
    match m tr with
    | (Ok a, tr') => k a tr'
    | (Err e, tr') => (Err e, tr')
    end.

Declare Scope py_scope.
Delimit Scope py_scope with py.
Notation "x <- m ;; k" := (bind m (fun x => k))
  (at level 100, m at next level, right associativity) : py_scope.
Notation "m ;;; k" := (bind m (fun _ => k))
  (at level 100, right associativity) : py_scope.

(** [sorted(xs, key=key)] on string keys: a stable insertion sort. *)
Fixpoint insert_by {A} (key : A -> string) (x : A) (xs : list A) : list A :=
  match xs with
  | [] => [x]
  | y :: ys =>
      if String.leb (key x) (key y) then x :: xs else y :: insert_by key x ys
  end.

Fixpoint sorted {A} (key : A -> string) (xs : list A) : list A :=
  match xs with
  | [] => []
  | x :: xs' => insert_by key x (sorted key xs')
  end.

(** [for x in xs: lines.extend(f(x))], stopping at the first exception. *)
Fixpoint extend_each {A} (f : A -> Result (list string)) (xs : list A)
    (lines : list string) : Result (list string) :=
  match xs with
  | [] => Ok lines
  | x :: xs' => rbind (f x) (fun out => extend_each f xs' (lines ++ out))
  end.

(* ===================================================================== *)
(** ** The parser module *)
(* ===================================================================== *)

Section Parser.

Context `{RT : Runtime}.

(** [_load_command(module_path, module_name)] *)
Definition _load_command (module_path module_name : string) : M Command :=
  (emit (LogInfo ("Loading module " +:+ module_path +:+ ":" +:+ module_name)) ;;;
   emit (ImportEvent module_path [module_name]) ;;;
   match import_ module_path [module_name] with
   | ImportSystemExit =>
       let err_msg :=
         "Failed to import '" +:+ module_name +:+ "' from '" +:+ module_path +:+ "'. " in
       raise (MKClickConfigException
                (err_msg +:+ "The module appeared to call sys.exit()"))
   | ImportRaised format_exc =>
       let err_msg :=
         "Failed to import '" +:+ module_name +:+ "' from '" +:+ module_path +:+ "'. " in
       raise (MKClickConfigException
                (err_msg +:+ "The following exception was raised:"
                   +:+ String Py.LF format_exc))
   | ImportModule getattr =>
       match getattr module_name with
       | None =>
           raise (MKClickConfigException
                    ("Module '" +:+ module_path +:+ "' has no attribute '"
                       +:+ module_name +:+ "'"))
       | Some (ObjOther type_repr) =>
           raise (MKClickConfigException
                    ("'" +:+ module_path +:+ "' of type '" +:+ type_repr
                       +:+ "' is not derived from 'click.BaseCommand'"))
       | Some (ObjCommand parser) => ret parser
       end
   end)%py.

(** [_make_header(text, level)] *)
Definition _make_header (text : string) (level : Z) : string :=
  Py.repeat_char "#" (level + 1) +:+ " " +:+ text.

(** [_make_title(prog_name, level)] *)
Definition _make_title (prog_name : string) (level : Z) : list string :=
  [_make_header prog_name level; ""].

(** [_make_description(ctx)] *)
Definition _make_description (ctx : Context) : list string :=
  let help_string := Py.or_ (help (command ctx)) (short_help (command ctx)) in
  match help_string with
  | Some (String _ _ as text) => Py.splitlines text ++ [""]
  | _ => []
  end.

(** The [while current is not None] loop of [_make_usage]. *)
Fixpoint walk_parents (current : Context) (full_path : list string) : list string :=
  match current with
  | mkContext cmd up =>
      let full_path := full_path ++ [name cmd] in
      match up with
      | Some current' => walk_parents current' full_path
      | None => full_path
      end
  end.

(** [_make_usage(ctx)] *)
Definition _make_usage (ctx : Context) : list string :=
  let pieces := collect_usage_pieces ctx in
  let usage :=
    Py.rstrip Py.LF (write_usage (command_path ctx) (Py.join " " pieces) "") in
  let full_path := rev (walk_parents ctx []) in
  ["Usage:"; "```"; Py.join " " full_path +:+ usage; "```"].

(** [_make_options(ctx)] *)
Definition _make_options (ctx : Context) : list string :=
  let option_lines := Py.slice_1_m1 (Py.splitlines (format_options ctx)) in
  match option_lines with
  | [] => []
  | _ => ["Options:"; "```code"] ++ option_lines ++ ["```"]
  end.

(** The loop of [_get_lazyload_commands]. *)
Fixpoint lazyload_loop (get_command : string -> option Command)
    (names : list string) (cmds : Dict Command) : Result (Dict Command) :=
  match names with
  | [] => Ok cmds
  | n :: names' =>
      match get_command n with
      | None => Err AssertionError
      | Some c => lazyload_loop get_command names' (dict_set cmds n c)
      end
  end.

(** [_get_lazyload_commands(multicommand, ctx)] *)
Definition _get_lazyload_commands
    (multi : list string * (string -> option Command)) (ctx : Context)
  : Result (Dict Command) :=
  lazyload_loop (snd multi) (fst multi) [].

(** The subcommand lookup of [_parse_recursively]: the [commands]
    attribute, or the lazily loaded commands when that is empty and the
    command is a multicommand. *)
Definition get_subcommands (ctx : Context) : Result (Dict Command) :=
  let lookup := default [] (commands (command ctx)) in
  match lookup, multicommand (command ctx) with
  | [], Some multi => _get_lazyload_commands multi ctx
  | _, _ => Ok lookup
  end.

(** [_parse_recursively(prog_name, command, parent, level)]; [fuel] is
    the number of nested calls of the walk still available, and with none
    left the call ends in [RecursionError]. *)
Fixpoint _parse_recursively (fuel : nat) (prog_name : string) (cmd : Command)
    (up : option Context) (level : Z) : Result (list string) :=
  match fuel with
  | O => Err RecursionError
  | S fuel' =>
      let ctx := mkContext cmd up in
      let lines :=
        _make_title prog_name level ++ _make_description ctx
          ++ _make_usage ctx ++ _make_options ctx in
      rbind (get_subcommands ctx) (fun lookup =>
      let cmds := sorted name (dict_values lookup) in
      rbind (extend_each
               (fun c => _parse_recursively fuel' (name c) c (Some ctx) (level + 1))
               cmds lines) (fun lines =>
      Ok (map (Py.remove_char Py.BS) lines)))
  end.

(** The loop over [required_options]: the first one that is missing. *)
Fixpoint first_missing (required_options : list string)
    (block_options : gmap string string) : option string :=
  match required_options with
  | [] => None
  | option :: rest =>
      match block_options !! option with
      | None => Some option
      | Some _ => first_missing rest block_options
      end
  end.

(** [d[key]] *)
Definition subscript (d : gmap string string) (key : string) : M string :=
  match d !! key with
  | Some v => ret v
  | None => raise (KeyError key)
  end.

(** [int(block_options.get("depth", 0))] *)
Definition get_depth (block_options : gmap string string) : M Z :=
  match block_options !! "depth" with
  | None => ret 0
  | Some text =>
      match int_of_str text with
      | Some n => ret n
      | None => raise ValueError
      end
  end.

(** [generate_command_docs(block_options)] *)
Definition generate_command_docs (block_options : gmap string string)
  : M (list string) :=
  match first_missing ["module"; "command"] block_options with
  | Some option =>
      raise (MKClickConfigException
               ("Parameter " +:+ option
                  +:+ " is required for mkdocs-click. Provided configuration was "
                  +:+ dict_str block_options))
  | None =>
      (module_path <- subscript block_options "module" ;;
       cmd_name <- subscript block_options "command" ;;
       depth <- get_depth block_options ;;
       click_command <- _load_command module_path cmd_name ;;
       lift (_parse_recursively recursion_limit cmd_name click_command None depth))%py
  end.

End Parser.

(* ===================================================================== *)
(** ** Measures on command trees *)
(* ===================================================================== *)

(** The number of nested calls the walk needs on [cmd]. *)
Fixpoint height (cmd : Command) : nat :=
  match cmd with
  | mkCommand _ _ _ eager multi =>
      S (Nat.max
           (match eager with
            | None => 0%nat
            | Some lookup =>
                (fix go (l : list (string * Command)) : nat :=
                   match l with
                   | [] => 0%nat
                   | (_, c) :: l' => Nat.max (height c) (go l')
                   end) lookup
            end)
           (match multi with
            | None => 0%nat
            | Some (names, get_command) =>
                (fix go (l : list string) : nat :=
                   match l with
                   | [] => 0%nat
                   | n :: l' =>
                       Nat.max (match get_command n with
                                | Some c => height c
                                | None => 0%nat
                                end) (go l')
                   end) names
            end))
  end.

(** Every name a lazily loaded multicommand declares resolves to a
    command, at [cmd] and at every subcommand the walk visits below it. *)
Fixpoint resolved (cmd : Command) : bool :=
  match cmd with
  | mkCommand _ _ _ eager multi =>
      let lazily :=
        match multi with
        | None => true
        | Some (names, get_command) =>
            (fix go (l : list string) : bool :=
               match l with
               | [] => true
               | n :: l' =>
                   match get_command n with
                   | Some c => resolved c && go l'
                   | None => false
                   end
               end) names
        end in
      match eager with
      | None | Some [] => lazily
      | Some lookup =>
          (fix go (l : list (string * Command)) : bool :=
             match l with
             | [] => true
             | (_, c) :: l' => resolved c && go l'
             end) lookup
      end
  end.

(* ===================================================================== *)
(** ** A sample command tree and runtime *)
(* ===================================================================== *)

Module Demo.

Definition help_line : string := "  --help  Show this message and exit.".

Definition leaf (n : string) (h : option string) : Command :=
  mkCommand n h None None None.

Definition add : Command := leaf "add" None.

(** A command whose help holds a backspace before a paragraph. *)
Definition quiet : Command :=
  leaf (String Py.BS "quiet") (Some (String Py.BS "Kept as written.")).

Definition zap : Command := leaf "zap" (Some "Zap it.").

(** A group whose subcommands were registered out of order. *)
Definition main : Command :=
  mkCommand "main" None None
    (Some [("zap", zap); ("add", add)])
    (Some (["add"; "zap"],
           fun n => dict_get [("zap", zap); ("add", add)] n)).

(** A multicommand that loads its subcommands on demand. *)
Definition plugins : Command :=
  mkCommand "plugins" None (Some "Plugin commands") None
    (Some (["zap"; "add"; "zap"],
           fun n => if String.eqb n "add" then Some add
                    else if String.eqb n "zap" then Some zap else None)).

(** A command with one option and the help flag switched off. *)
Definition bare : Command := leaf "bare" None.

(** A multicommand declaring a name it cannot resolve. *)
Definition broken : Command :=
  mkCommand "broken" None None (Some [])
    (Some (["ghost"], fun _ => None)).

Definition tool : Command :=
  mkCommand "tool" (Some "A tool.") None
    (Some [("plugins", plugins); ("main", main)]) None.

Fixpoint digits_value (s : string) (acc : Z) : option Z :=
  match s with
  | EmptyString => Some acc
  | String c s' =>
      let n := Z.of_nat (nat_of_ascii c) in
      if (48 <=? n) && (n <=? 57) then digits_value s' (10 * acc + (n - 48))
      else None
  end.

Definition decimal (s : string) : option Z :=
  match s with
  | EmptyString => None
  | String "-" (String _ _ as ds) => option_map Z.opp (digits_value ds 0)
  | _ => digits_value s 0
  end.

Definition show_item (kv : string * string) : string :=
  "'" +:+ fst kv +:+ "': '" +:+ snd kv +:+ "'".

#[global] Instance runtime : Runtime :=
  {|
    import_ := fun module_path _ =>
      if String.eqb module_path "pkg.cli" then
        ImportModule (fun n =>
          if String.eqb n "main" then Some (ObjCommand main)
          else if String.eqb n "tool" then Some (ObjCommand tool)
          else if String.eqb n "broken" then Some (ObjCommand broken)
          else if String.eqb n "version" then Some (ObjOther "<class 'str'>")
          else None)
      else if String.eqb module_path "pkg.exits" then ImportSystemExit
      else ImportRaised "Traceback (most recent call last): ...";
    dict_str := fun d =>
      "{" +:+ Py.join ", " (map show_item (map_to_list d)) +:+ "}";
    int_of_str := decimal;
    recursion_limit := 1000;
    collect_usage_pieces := fun ctx =>
      match multicommand (command ctx) with
      | Some _ => ["[OPTIONS]"; "COMMAND [ARGS]..."]
      | None => ["[OPTIONS]"]
      end;
    command_path := fun _ => EmptyString;
    write_usage := fun prog args prefix =>
      prefix +:+ prog +:+ " " +:+ args +:+ String Py.LF EmptyString;
    format_options := fun ctx =>
      if String.eqb (name (command ctx)) "add"
      then Py.written ["Options:"; "  --verbose  Say more."; help_line]
      else if String.eqb (name (command ctx)) "bare"
      then Py.written ["Options:"; "  --verbose  Say more."]
      else Py.written ["Options:"; help_line]
  |}.

End Demo.

(* ===================================================================== *)
(** ** Vocabulary of the properties *)
(* ===================================================================== *)

(** The number of contexts above [ctx]: 0 at the root. *)
Fixpoint depth (ctx : Context) : nat :=
  match ctx with
  | mkContext _ None => 0%nat
  | mkContext _ (Some up) => S (depth up)
  end.

(** The command names on the way from the root down to [ctx]. *)
Fixpoint names_from_root (ctx : Context) : list string :=
  match ctx with
  | mkContext cmd None => [name cmd]
  | mkContext cmd (Some up) => names_from_root up ++ [name cmd]
  end.

(** The names of a list, each once, in the order of their first
    occurrence. *)
Fixpoint first_occurrences (names : list string) : list string :=
  match names with
  | [] => []
  | n :: rest =>
      n :: List.filter (fun k => negb (String.eqb k n)) (first_occurrences rest)
  end.

(** [lookup] is the mapping of the subcommands of [cmd]: the [commands]
    attribute itself when it is not empty; otherwise, for a multicommand,
    the declared names in the order of their first declaration, each with
    the command [get_command] resolves it to; otherwise the empty
    mapping. *)
Definition is_lookup_of (cmd : Command) (lookup : Dict Command) : Prop :=
  match default [] (commands cmd), multicommand cmd with
  | [], Some (names, get_command) =>
      dict_keys lookup = first_occurrences names /\
      Forall (fun kv => get_command (fst kv) = Some (snd kv)) lookup
  | [], None => lookup = []
  | eager, _ => lookup = eager
  end.

(** [x] comes no later than [y] when ordered by [key]. *)
Definition key_le {A} (key : A -> string) (x y : A) : Prop :=
  String.leb (key x) (key y) = true.

(** The removal of backspaces that ends [_parse_recursively]. *)
Definition strip : string -> string := Py.remove_char Py.BS.

(** The lines a node contributes itself, before backspaces are removed. *)
Definition fragment `{RT : Runtime} (prog_name : string) (ctx : Context)
    (level : Z) : list string :=
  _make_title prog_name level ++ _make_description ctx
    ++ _make_usage ctx ++ _make_options ctx.

(** The usage text of [ctx] as the formatter renders it, without its
    trailing newlines. *)
Definition usage_text `{RT : Runtime} (ctx : Context) : string :=
  Py.rstrip Py.LF
    (write_usage (command_path ctx) (Py.join " " (collect_usage_pieces ctx)) "").

(** The messages of the four failures of [_load_command]. *)
Definition failed_import (module_path module_name : string) : string :=
  "Failed to import '" +:+ module_name +:+ "' from '" +:+ module_path +:+ "'. ".

Definition msg_raised (module_path module_name format_exc : string) : string :=
  failed_import module_path module_name
    +:+ "The following exception was raised:" +:+ String Py.LF format_exc.

Definition msg_exit (module_path module_name : string) : string :=
  failed_import module_path module_name +:+ "The module appeared to call sys.exit()".

Definition msg_missing (module_path module_name : string) : string :=
  "Module '" +:+ module_path +:+ "' has no attribute '" +:+ module_name +:+ "'".

Definition msg_type (module_path type_repr : string) : string :=
  "'" +:+ module_path +:+ "' of type '" +:+ type_repr
    +:+ "' is not derived from 'click.BaseCommand'".

(** The message of a missing required option. *)
Definition msg_required `{RT : Runtime} (option : string)
    (block_options : gmap string string) : string :=
  "Parameter " +:+ option
    +:+ " is required for mkdocs-click. Provided configuration was "
    +:+ dict_str block_options.

(** The trace after the log line and the import of [_load_command]. *)
Definition loaded (tr : list Event) (module_path module_name : string) : list Event :=
  (tr ++ [LogInfo ("Loading module " +:+ module_path +:+ ":" +:+ module_name)])
    ++ [ImportEvent module_path [module_name]].

(** No import is recorded in a trace. *)
Definition no_import (tr : list Event) : Prop :=
  forall module_path fromlist, ~ In (ImportEvent module_path fromlist) tr.

(* ===================================================================== *)
(** ** Facts about strings *)
(* ===================================================================== *)

Module PyFacts.
Import Py.

#[local] Arguments String.append !s1 s2 : simpl nomatch.

Lemma remove_char_clean c s : ~ contains_char c (remove_char c s).
Proof.
  unfold contains_char.
  induction s as [|d s IH]; simpl; [tauto|].
  destruct (Ascii.eqb d c) eqn:E; [exact IH|].
  simpl. intros [->|H]; [|exact (IH H)].
  rewrite Ascii.eqb_refl in E. discriminate.
Qed.

Lemma remove_char_absent c s : ~ contains_char c s -> remove_char c s = s.
Proof.
  unfold contains_char.
  induction s as [|d s IH]; simpl; [reflexivity|].
  intros H. destruct (Ascii.eqb d c) eqn:E.
  - apply Ascii.eqb_eq in E. tauto.
  - f_equal. apply IH. tauto.
Qed.

Lemma remove_char_idem c s : remove_char c (remove_char c s) = remove_char c s.
Proof. apply remove_char_absent, remove_char_clean. Qed.

Lemma remove_char_app c s t :
  remove_char c (s +:+ t) = remove_char c s +:+ remove_char c t.
Proof.
  induction s as [|d s IH]; simpl; [reflexivity|].
  destruct (Ascii.eqb d c); simpl; now rewrite IH.
Qed.

Lemma remove_char_repeat c d n :
  c <> d -> remove_char c (repeat_char d n) = repeat_char d n.
Proof.
  intros Hne. apply remove_char_absent. unfold contains_char, repeat_char.
  rewrite list_ascii_of_string_of_list_ascii.
  intros H. apply repeat_spec in H. congruence.
Qed.

Lemma length_repeat_char c n : 0 <= n -> Z.of_nat (String.length (repeat_char c n)) = n.
Proof.
  intros Hn. unfold repeat_char.
  assert (forall k, String.length (string_of_list_ascii (repeat c k)) = k) as ->.
  { induction k; simpl; congruence. }
  lia.
Qed.

Lemma append_cancel_l p a b : p +:+ a = p +:+ b -> a = b.
Proof. induction p; simpl; intros H; [exact H | injection H; auto]. Qed.

Lemma append_assoc a b c : (a +:+ b) +:+ c = a +:+ (b +:+ c).
Proof. induction a; simpl; congruence. Qed.

(** A line without line breaks, written with its newline, is read back
    by [splitlines] as that line. *)
Lemma splitlines_line l rest :
  one_line l = true ->
  splitlines (l +:+ String LF rest) = l :: splitlines rest.
Proof.
  unfold one_line. induction l as [|c l IH]; simpl; intros H.
  - reflexivity.
  - apply andb_prop in H as [Hc Hl].
    apply negb_true_iff in Hc. rewrite Hc.
    rewrite (IH Hl). reflexivity.
Qed.

Lemma splitlines_written ls :
  Forall (fun l => one_line l = true) ls -> splitlines (written ls) = ls.
Proof.
  induction 1 as [|l ls Hl _ IH]; simpl; [reflexivity|].
  now rewrite splitlines_line, IH.
Qed.

Lemma leb_trans a b c :
  String.leb a b = true -> String.leb b c = true -> String.leb a c = true.
Proof.
  unfold String.leb. intros Hab Hbc.
  destruct (String.compare a b) eqn:Eab; try discriminate;
    destruct (String.compare b c) eqn:Ebc; try discriminate.
  - apply String_as_OT.cmp_eq in Eab, Ebc. subst.
    pose proof (proj2 (String_as_OT.cmp_eq c c) eq_refl) as H.
    unfold String_as_OT.cmp in H. now rewrite H.
  - apply String_as_OT.cmp_eq in Eab. subst. now rewrite Ebc.
  - apply String_as_OT.cmp_eq in Ebc. subst. now rewrite Eab.
  - apply String_as_OT.cmp_lt in Eab, Ebc.
    pose proof (String_as_OT.lt_trans _ _ _ Eab Ebc) as H.
    apply String_as_OT.cmp_lt in H. unfold String_as_OT.cmp in H. now rewrite H.
Qed.

End PyFacts.

(* ===================================================================== *)
(** ** Facts about dictionaries and sorting *)
(* ===================================================================== *)

Section Containers.

Context {A : Type}.

Lemma dict_get_set (d : Dict A) k v k' :
  dict_get (dict_set d k v) k' = if String.eqb k k' then Some v else dict_get d k'.
Proof.
  induction d as [|[k0 v0] d IH]; simpl.
  - reflexivity.
  - destruct (String.eqb k0 k) eqn:E0; simpl.
    + apply String.eqb_eq in E0. subst k0.
      destruct (String.eqb k k'); reflexivity.
    + rewrite IH. destruct (String.eqb k0 k') eqn:E1; [|reflexivity].
      apply String.eqb_eq in E1. subst k0. now rewrite String.eqb_sym, E0.
Qed.

Lemma dict_keys_set (d : Dict A) k v k' :
  In k' (dict_keys (dict_set d k v)) <-> k' = k \/ In k' (dict_keys d).
Proof.
  unfold dict_keys. induction d as [|[k0 v0] d IH]; simpl.
  - intuition.
  - destruct (String.eqb k0 k) eqn:E0; simpl.
    + apply String.eqb_eq in E0. subst k0. intuition.
    + rewrite IH. intuition.
Qed.

Lemma dict_keys_set_NoDup (d : Dict A) k v :
  List.NoDup (dict_keys d) -> List.NoDup (dict_keys (dict_set d k v)).
Proof.
  unfold dict_keys. induction d as [|[k0 v0] d IH]; simpl; intros H.
  - constructor; [tauto | constructor].
  - inversion H as [|? ? Hin Hnd]; subst.
    destruct (String.eqb k0 k) eqn:E0; simpl.
    + constructor; assumption.
    + constructor; [|auto].
      intros Hk. apply (dict_keys_set d k v k0) in Hk as [->|Hk]; [|tauto].
      rewrite String.eqb_refl in E0. discriminate.
Qed.

Lemma dict_values_set (d : Dict A) k v x :
  In x (dict_values (dict_set d k v)) -> x = v \/ In x (dict_values d).
Proof.
  unfold dict_values. induction d as [|[k0 v0] d IH]; simpl.
  - intuition.
  - destruct (String.eqb k0 k); simpl; intuition.
Qed.

Variable key : A -> string.

Lemma insert_by_perm x xs : Permutation (insert_by key x xs) (x :: xs).
Proof.
  induction xs as [|y ys IH]; simpl; [reflexivity|].
  destruct (String.leb (key x) (key y)); [reflexivity|].
  rewrite IH. apply perm_swap.
Qed.

Lemma sorted_perm xs : Permutation (sorted key xs) xs.
Proof.
  induction xs as [|x xs IH]; simpl; [reflexivity|].
  rewrite insert_by_perm. now constructor.
Qed.

Lemma insert_by_sorted x xs :
  StronglySorted (key_le key) xs -> StronglySorted (key_le key) (insert_by key x xs).
Proof.
  induction 1 as [|y ys Hs IH Hall]; simpl.
  - repeat constructor.
  - destruct (String.leb (key x) (key y)) eqn:E.
    + constructor; [now constructor|].
      constructor; [exact E|].
      eapply List.Forall_impl; [|exact Hall].
      intros z Hz. eapply PyFacts.leb_trans; eassumption.
    + constructor; [exact IH|].
      eapply Permutation_Forall; [symmetry; apply insert_by_perm|].
      constructor; [|exact Hall].
      destruct (String.leb_total (key x) (key y)) as [H|H]; [congruence|exact H].
Qed.

Lemma sorted_sorted xs : StronglySorted (key_le key) (sorted key xs).
Proof.
  induction xs as [|x xs IH]; simpl; [constructor | now apply insert_by_sorted].
Qed.

Lemma insert_by_comm x y xs :
  key x <> key y ->
  insert_by key x (insert_by key y xs) = insert_by key y (insert_by key x xs).
Proof.
  intros Hne.
  assert (Hanti : String.leb (key x) (key y) = true ->
                  String.leb (key y) (key x) = true -> False)
    by (intros; now apply Hne, String.leb_antisym).
  assert (Htot : String.leb (key x) (key y) = false ->
                 String.leb (key y) (key x) = false -> False)
    by (intros; destruct (String.leb_total (key x) (key y)); congruence).
  induction xs as [|z zs IH]; simpl.
  - destruct (String.leb (key x) (key y)) eqn:Exy,
             (String.leb (key y) (key x)) eqn:Eyx;
      try reflexivity; exfalso; auto.
  - pose proof (PyFacts.leb_trans (key x) (key y) (key z)) as Txyz.
    pose proof (PyFacts.leb_trans (key y) (key x) (key z)) as Tyxz.
    destruct (String.leb (key y) (key z)) eqn:Eyz,
             (String.leb (key x) (key z)) eqn:Exz; simpl;
      rewrite ?Eyz, ?Exz;
      destruct (String.leb (key x) (key y)) eqn:Exy,
               (String.leb (key y) (key x)) eqn:Eyx; simpl;
      rewrite ?Eyz, ?Exz; try reflexivity; try (now rewrite IH);
      exfalso; auto; try (specialize (Txyz eq_refl eq_refl); discriminate);
      try (specialize (Tyxz eq_refl eq_refl); discriminate).
Qed.

(** With distinct keys the sorted list does not depend on the order of
    the input. *)
Lemma sorted_order_irrelevant xs ys :
  Permutation xs ys -> List.NoDup (map key xs) -> sorted key xs = sorted key ys.
Proof.
  induction 1 as [|x xs ys HP IH|x y xs|xs ys zs HP1 IH1 HP2 IH2]; simpl; intros Hnd.
  - reflexivity.
  - inversion Hnd; subst. now rewrite IH.
  - inversion Hnd as [|? ? Hin _]; subst.
    apply insert_by_comm. intros E. apply Hin. simpl. now left.
  - rewrite IH1 by assumption. apply IH2.
    eapply Permutation_NoDup; [|exact Hnd]. now apply Permutation_map.
Qed.

End Containers.

(* ===================================================================== *)
(** ** Facts about the subcommand lookup *)
(* ===================================================================== *)

Section Lookup.

Context `{RT : Runtime}.

Lemma rbind_ok {A B} (r : Result A) (k : A -> Result B) b :
  rbind r k = Ok b -> exists a, r = Ok a /\ k a = Ok b.
Proof. destruct r; simpl; [eauto | discriminate]. Qed.

Lemma extend_each_ok {A} (f : A -> Result (list string)) xs lines r :
  extend_each f xs lines = Ok r ->
  exists outs, Forall2 (fun x o => f x = Ok o) xs outs /\ r = lines ++ concat outs.
Proof.
  revert lines r. induction xs as [|x xs IH]; simpl; intros lines r H.
  - injection H as <-. exists []. split; [constructor | now rewrite app_nil_r].
  - apply rbind_ok in H as (o & Ho & H).
    apply IH in H as (outs & HF & ->).
    exists (o :: outs). split; [now constructor | simpl; now rewrite app_assoc].
Qed.

Lemma extend_each_total {A} (f : A -> Result (list string)) xs lines :
  Forall (fun x => exists o, f x = Ok o) xs ->
  exists r, extend_each f xs lines = Ok r.
Proof.
  intros H. revert lines. induction H as [|x xs [o Ho] _ IH]; simpl; intros lines.
  - eauto.
  - rewrite Ho. simpl. apply IH.
Qed.

(** What a finished run of the lazy loading loop has built. *)
Lemma lazyload_loop_inv get_command names acc d :
  lazyload_loop get_command names acc = Ok d ->
  (forall n, In n names -> get_command n <> None /\ dict_get d n = get_command n) /\
  (forall n, ~ In n names -> dict_get d n = dict_get acc n) /\
  (forall n, In n (dict_keys d) <-> In n names \/ In n (dict_keys acc)) /\
  (List.NoDup (dict_keys acc) -> List.NoDup (dict_keys d)) /\
  (forall c, In c (dict_values d) ->
             In c (dict_values acc) \/ exists n, In n names /\ get_command n = Some c).
Proof.
  revert acc. induction names as [|n names IH]; simpl; intros acc H.
  - injection H as <-. repeat split; tauto.
  - destruct (get_command n) as [c|] eqn:Hn; [|discriminate].
    apply IH in H as (Hin & Hout & Hkeys & Hnd & Hvals).
    split; [|split; [|split; [|split]]].
    + intros k [<-|Hk].
      * split; [congruence|].
        destruct (in_dec string_dec n names) as [Hi|Hi].
        -- apply Hin, Hi.
        -- rewrite (Hout _ Hi), dict_get_set, String.eqb_refl. now rewrite Hn.
      * apply Hin, Hk.
    + intros k Hk. rewrite Hout by tauto. rewrite dict_get_set.
      destruct (String.eqb n k) eqn:E; [|reflexivity].
      apply String.eqb_eq in E. tauto.
    + intros k. rewrite Hkeys, dict_keys_set. intuition.
    + intros Hacc. apply Hnd. now apply dict_keys_set_NoDup.
    + intros c' Hc'. apply Hvals in Hc' as [Hc'|(k & Hk & Hgk)].
      * apply dict_values_set in Hc' as [->|Hc']; [right; eauto | now left].
      * right. eauto.
Qed.

Lemma lazyload_loop_total get_command names acc :
  (forall n, In n names -> get_command n <> None) ->
  exists d, lazyload_loop get_command names acc = Ok d.
Proof.
  revert acc. induction names as [|n names IH]; simpl; intros acc H; [eauto|].
  destruct (get_command n) as [c|] eqn:Hn.
  - apply IH. auto.
  - exfalso. apply (H n); auto.
Qed.

Lemma height_eager cmd lookup c :
  commands cmd = Some lookup -> In c (dict_values lookup) ->
  (height c < height cmd)%nat.
Proof.
  destruct cmd as [n h sh eager multi]. simpl. intros -> Hc.
  apply Nat.lt_succ_r. etransitivity; [|apply Nat.le_max_l].
  induction lookup as [|[k c'] l IH]; simpl in *; [tauto|].
  destruct Hc as [->|Hc]; [apply Nat.le_max_l|].
  etransitivity; [apply IH, Hc | apply Nat.le_max_r].
Qed.

Lemma height_lazy cmd names get_command n c :
  multicommand cmd = Some (names, get_command) -> In n names ->
  get_command n = Some c -> (height c < height cmd)%nat.
Proof.
  destruct cmd as [nm h sh eager multi]. simpl. intros -> Hn Hc.
  apply Nat.lt_succ_r. etransitivity; [|apply Nat.le_max_r].
  induction names as [|k l IH]; simpl in *; [tauto|].
  destruct Hn as [->|Hn].
  - rewrite Hc. apply Nat.le_max_l.
  - etransitivity; [apply IH, Hn | apply Nat.le_max_r].
Qed.

Lemma resolved_eager cmd p lookup :
  resolved cmd = true -> commands cmd = Some (p :: lookup) ->
  Forall (fun c => resolved c = true) (dict_values (p :: lookup)).
Proof.
  destruct cmd as [nm h sh eager multi]. simpl. intros H ->.
  destruct p as [k c]. simpl in *.
  apply andb_prop in H as [Hc Hl]. constructor; [exact Hc|]. clear Hc.
  induction lookup as [|[k' c'] l IH]; simpl in *; [constructor|].
  apply andb_prop in Hl as [Hc Hl]. constructor; auto.
Qed.

Lemma resolved_lazy cmd names get_command :
  resolved cmd = true -> default [] (commands cmd) = [] ->
  multicommand cmd = Some (names, get_command) ->
  forall n, In n names -> exists c, get_command n = Some c /\ resolved c = true.
Proof.
  destruct cmd as [nm h sh eager multi]. simpl. intros H He ->.
  assert (Hl : (fix go (l : list string) : bool :=
                  match l with
                  | [] => true
                  | n :: l' =>
                      match get_command n with
                      | Some c => resolved c && go l'
                      | None => false
                      end
                  end) names = true).
  { destruct eager as [[|? ?]|]; simpl in He; try discriminate; exact H. }
  clear H He. induction names as [|k l IH]; simpl; intros n Hn; [tauto|].
  destruct (get_command k) as [c|] eqn:Hk; [|discriminate].
  apply andb_prop in Hl as [Hc Hl].
  destruct Hn as [<-|Hn]; [eauto | now apply IH].
Qed.

Lemma get_subcommands_height ctx lookup :
  get_subcommands ctx = Ok lookup ->
  Forall (fun c => (height c < height (command ctx))%nat) (dict_values lookup).
Proof.
  unfold get_subcommands, _get_lazyload_commands. intros H.
  apply List.Forall_forall. intros c Hc.
  destruct (commands (command ctx)) as [[|p l]|] eqn:He; simpl in H.
  - destruct (multicommand (command ctx)) as [[names get]|] eqn:Hm.
    + simpl in H. apply lazyload_loop_inv in H as (_ & _ & _ & _ & Hv).
      apply Hv in Hc as [[]|(n & Hn & Hg)]. eapply height_lazy; eassumption.
    + injection H as <-. destruct Hc.
  - assert (lookup = p :: l) as ->
        by (destruct (multicommand (command ctx)); congruence).
    eapply height_eager; eassumption.
  - destruct (multicommand (command ctx)) as [[names get]|] eqn:Hm.
    + simpl in H. apply lazyload_loop_inv in H as (_ & _ & _ & _ & Hv).
      apply Hv in Hc as [[]|(n & Hn & Hg)]. eapply height_lazy; eassumption.
    + injection H as <-. destruct Hc.
Qed.

Lemma get_subcommands_total ctx :
  resolved (command ctx) = true ->
  exists lookup, get_subcommands ctx = Ok lookup /\
                 Forall (fun c => resolved c = true) (dict_values lookup).
Proof.
  intros Hr. unfold get_subcommands, _get_lazyload_commands.
  destruct (default [] (commands (command ctx))) as [|p l] eqn:He.
  - destruct (multicommand (command ctx)) as [[names get]|] eqn:Hm;
      [|exists []; split; [reflexivity | constructor]].
    simpl. pose proof (resolved_lazy _ _ _ Hr He Hm) as Hall.
    destruct (lazyload_loop_total get names [])
      as [d Hd]; [intros n Hn; destruct (Hall n Hn) as (c & -> & _); discriminate|].
    exists d. split; [exact Hd|].
    apply lazyload_loop_inv in Hd as (_ & _ & _ & _ & Hv).
    apply List.Forall_forall. intros c Hc.
    apply Hv in Hc as [[]|(n & Hn & Hg)].
    destruct (Hall n Hn) as (c' & Hc' & Hres). congruence.
  - exists (p :: l). split; [now destruct (multicommand (command ctx))|].
    destruct (commands (command ctx)) as [l'|] eqn:Hc; simpl in He; [|discriminate].
    subst l'. eapply resolved_eager; eassumption.
Qed.

Lemma dict_keys_set_eq {A} (d : Dict A) k v :
  dict_keys (dict_set d k v) =
    if existsb (fun k' => String.eqb k' k) (dict_keys d)
    then dict_keys d else dict_keys d ++ [k].
Proof.
  unfold dict_keys. induction d as [|[k0 v0] d IH]; simpl; [reflexivity|].
  destruct (String.eqb k0 k) eqn:E; simpl; [reflexivity|].
  rewrite IH. now destruct (existsb (fun k' => String.eqb k' k) (map fst d)).
Qed.

Lemma dict_set_Forall {A} (P : string * A -> Prop) (d : Dict A) k v :
  Forall P d -> P (k, v) -> Forall P (dict_set d k v).
Proof.
  intros Hd Hkv. induction Hd as [|[k0 v0] d H0 Hd IH]; simpl.
  - repeat constructor. exact Hkv.
  - destruct (String.eqb k0 k) eqn:E.
    + constructor; [|exact Hd]. apply String.eqb_eq in E. now subst k0.
    + constructor; assumption.
Qed.

Lemma filter_filter_ext {A} (P Q R : A -> bool) xs :
  (forall x, Q x && P x = R x) ->
  List.filter P (List.filter Q xs) = List.filter R xs.
Proof.
  intros H. induction xs as [|x xs IH]; [reflexivity|].
  cbn [List.filter]. rewrite <- H.
  destruct (Q x); cbn [List.filter andb]; [destruct (P x)|]; now rewrite IH.
Qed.

Lemma filter_all {A} (xs : list A) : List.filter (fun _ => true) xs = xs.
Proof. induction xs; simpl; congruence. Qed.

(** The keys of the lazily loaded mapping are the declared names, each
    once, in the order of their first declaration. *)
Lemma lazyload_loop_keys get_command names : forall acc d,
  lazyload_loop get_command names acc = Ok d ->
  dict_keys d =
    dict_keys acc ++
      List.filter
        (fun k => negb (existsb (fun k' => String.eqb k' k) (dict_keys acc)))
        (first_occurrences names).
Proof.
  induction names as [|n rest IH]; cbn [lazyload_loop first_occurrences];
    intros acc d H.
  - injection H as <-. cbn [List.filter]. now rewrite app_nil_r.
  - destruct (get_command n) as [c|] eqn:Hg; [|discriminate].
    apply IH in H. rewrite H, dict_keys_set_eq. cbn [List.filter].
    destruct (existsb (fun k' => String.eqb k' n) (dict_keys acc)) eqn:Em;
      cbn [negb].
    + f_equal. symmetry. apply filter_filter_ext. intros k.
      destruct (String.eqb k n) eqn:E; [|reflexivity].
      apply String.eqb_eq in E. subst k. now rewrite Em.
    + rewrite <- app_assoc. cbn [app]. do 2 f_equal.
      rewrite filter_filter_ext
        with (R := fun k => negb (existsb (fun k' => String.eqb k' k)
                                    (dict_keys acc ++ [n]))); [reflexivity|].
      intros k. rewrite existsb_app. cbn [existsb].
      rewrite (String.eqb_sym n k).
      destruct (String.eqb k n), (existsb (fun k' => String.eqb k' k) (dict_keys acc));
        reflexivity.
Qed.

Lemma lazyload_loop_bound get_command names : forall acc d,
  Forall (fun kv => get_command (fst kv) = Some (snd kv)) acc ->
  lazyload_loop get_command names acc = Ok d ->
  Forall (fun kv => get_command (fst kv) = Some (snd kv)) d.
Proof.
  induction names as [|n rest IH]; cbn [lazyload_loop]; intros acc d Hacc H.
  - now injection H as <-.
  - destruct (get_command n) as [c|] eqn:Hg; [|discriminate].
    eapply IH; [|exact H].
    apply dict_set_Forall; [exact Hacc | exact Hg].
Qed.

(** The lookup of the walk, when it returns, is the mapping of the
    subcommands of the command. *)
Lemma get_subcommands_lookup ctx lookup :
  get_subcommands ctx = Ok lookup -> is_lookup_of (command ctx) lookup.
Proof.
  unfold get_subcommands, is_lookup_of, _get_lazyload_commands.
  destruct (default [] (commands (command ctx))) as [|p l];
    destruct (multicommand (command ctx)) as [[names get]|];
    cbn [fst snd]; intros H; try (now injection H).
  split.
  - apply lazyload_loop_keys in H. rewrite H. cbn [dict_keys map app existsb negb].
    apply filter_all.
  - eapply lazyload_loop_bound; [|exact H]. constructor.
Qed.

End Lookup.

(* ===================================================================== *)
(** ** Facts about the walk *)
(* ===================================================================== *)

Section Walk.

Context `{RT : Runtime}.

Lemma Context_chain_ind (P : Context -> Prop) :
  (forall cmd, P (mkContext cmd None)) ->
  (forall cmd up, P up -> P (mkContext cmd (Some up))) ->
  forall ctx, P ctx.
Proof.
  intros Hroot Hstep.
  fix IH 1. intros [cmd [up|]]; [apply Hstep, IH | apply Hroot].
Qed.

Lemma walk_parents_names ctx acc :
  walk_parents ctx acc = acc ++ rev (names_from_root ctx).
Proof.
  revert acc. induction ctx as [cmd|cmd up IH] using Context_chain_ind;
    intros acc; simpl.
  - reflexivity.
  - rewrite IH, rev_app_distr. simpl. now rewrite <- app_assoc.
Qed.

Lemma full_path_names ctx : rev (walk_parents ctx []) = names_from_root ctx.
Proof. rewrite walk_parents_names. simpl. apply rev_involutive. Qed.

Lemma length_names_from_root ctx :
  List.length (names_from_root ctx) = S (depth ctx).
Proof.
  induction ctx as [cmd|cmd up IH] using Context_chain_ind; simpl.
  - reflexivity.
  - rewrite length_app, IH. simpl. lia.
Qed.

Lemma make_usage_lines ctx :
  _make_usage ctx =
    ["Usage:"; "```"; Py.join " " (names_from_root ctx) +:+ usage_text ctx; "```"].
Proof. unfold _make_usage, usage_text. now rewrite full_path_names. Qed.

Lemma map_strip_idem lines : map strip (map strip lines) = map strip lines.
Proof.
  rewrite map_map. apply map_ext. intros l. apply PyFacts.remove_char_idem.
Qed.

Lemma parse_step fuel prog cmd up level :
  _parse_recursively (S fuel) prog cmd up level =
    let ctx := mkContext cmd up in
    rbind (get_subcommands ctx) (fun lookup =>
    rbind (extend_each
             (fun c => _parse_recursively fuel (name c) c (Some ctx) (level + 1))
             (sorted name (dict_values lookup)) (fragment prog ctx level))
          (fun lines => Ok (map strip lines))).
Proof. reflexivity. Qed.

Lemma parse_stripped fuel prog cmd up level out :
  _parse_recursively fuel prog cmd up level = Ok out -> map strip out = out.
Proof.
  destruct fuel as [|fuel]; [discriminate|]. rewrite parse_step. intros H.
  apply rbind_ok in H as (lookup & _ & H).
  apply rbind_ok in H as (lines & _ & H).
  injection H as <-. apply map_strip_idem.
Qed.

Lemma concat_stripped (outs : list (list string)) :
  Forall (fun o => map strip o = o) outs -> map strip (concat outs) = concat outs.
Proof.
  induction 1 as [|o outs Ho _ IH]; simpl; [reflexivity|].
  now rewrite map_app, Ho, IH.
Qed.

(** One step of the walk: the node's own fragment, then the outputs of
    the subcommands taken in sorted order, one level down and with the
    node's context as parent. *)
Lemma parse_ok_inv fuel prog cmd up level out :
  _parse_recursively fuel prog cmd up level = Ok out ->
  let ctx := mkContext cmd up in
  exists fuel' lookup outs,
    fuel = S fuel' /\
    get_subcommands ctx = Ok lookup /\
    Forall2 (fun c o =>
               _parse_recursively fuel' (name c) c (Some ctx) (level + 1) = Ok o)
      (sorted name (dict_values lookup)) outs /\
    out = map strip (fragment prog ctx level) ++ concat outs.
Proof.
  destruct fuel as [|fuel]; [discriminate|]. rewrite parse_step. intros H ctx.
  apply rbind_ok in H as (lookup & Hl & H).
  apply rbind_ok in H as (lines & He & H).
  injection H as <-.
  apply extend_each_ok in He as (outs & HF & ->).
  exists fuel, lookup, outs. repeat split; try assumption.
  rewrite map_app. f_equal.
  apply concat_stripped.
  clear -HF. induction HF as [|c o cs os Hc _ IH]; constructor; [|exact IH].
  eapply parse_stripped, Hc.
Qed.

(** The walk returns on every tree whose lazily declared names resolve,
    given as many nested calls as the tree is high. *)
Lemma parse_total fuel : forall prog cmd up level,
  (height cmd <= fuel)%nat -> resolved cmd = true ->
  exists out, _parse_recursively fuel prog cmd up level = Ok out.
Proof.
  induction fuel as [|fuel IH]; intros prog cmd up level Hh Hr.
  - destruct cmd; simpl in Hh; lia.
  - rewrite parse_step.
    destruct (get_subcommands_total (mkContext cmd up) Hr) as (lookup & Hl & Hres).
    pose proof (get_subcommands_height _ _ Hl) as Hlt. simpl in Hlt.
    cbv zeta. rewrite Hl. simpl rbind.
    match goal with
    | |- context [extend_each ?f ?xs ?ls] =>
        destruct (extend_each_total f xs ls) as [r Hr']
    end.
    + apply List.Forall_forall. intros c Hc.
      assert (In c (dict_values lookup)) as Hin
          by (eapply Permutation_in; [apply sorted_perm | exact Hc]).
      apply IH.
      * rewrite List.Forall_forall in Hlt. specialize (Hlt c Hin). lia.
      * rewrite List.Forall_forall in Hres. now apply Hres.
    + rewrite Hr'. simpl rbind. eauto.
Qed.

Lemma bind_ret_raise {A B} (e : Exception) (k : A -> M B) tr :
  bind (raise e) k tr = (Err e, tr).
Proof. reflexivity. Qed.

Lemma strip_header text level :
  strip (_make_header text level) = _make_header (strip text) level.
Proof.
  unfold _make_header, strip.
  rewrite !PyFacts.remove_char_app, PyFacts.remove_char_repeat by discriminate.
  reflexivity.
Qed.

Lemma parse_head fuel prog cmd up level out :
  _parse_recursively fuel prog cmd up level = Ok out ->
  exists body, out = _make_header (strip prog) level :: EmptyString :: body.
Proof.
  intros H. apply parse_ok_inv in H as (fuel' & lookup & outs & _ & _ & _ & ->).
  unfold fragment, _make_title. simpl. rewrite strip_header. eauto.
Qed.

Lemma parse_clean fuel prog cmd up level out :
  _parse_recursively fuel prog cmd up level = Ok out ->
  Forall (fun l => ~ Py.contains_char Py.BS l) out.
Proof.
  intros H. apply parse_stripped in H. rewrite <- H.
  apply List.Forall_forall. intros l Hl.
  apply in_map_iff in Hl as (l0 & <- & _). apply PyFacts.remove_char_clean.
Qed.

Lemma first_missing_required (block_options : gmap string string) :
  block_options !! "module" = None \/ block_options !! "command" = None ->
  exists option,
    first_missing ["module"; "command"] block_options = Some option /\
    (option = "module" \/ option = "command") /\
    block_options !! option = None.
Proof.
  intros H. simpl.
  destruct (block_options !! "module") as [m|] eqn:Hm.
  - destruct (block_options !! "command") as [c|] eqn:Hc.
    + destruct H; discriminate.
    + exists "command". auto.
  - exists "module". auto.
Qed.

Lemma first_missing_present (block_options : gmap string string) m c :
  block_options !! "module" = Some m -> block_options !! "command" = Some c ->
  first_missing ["module"; "command"] block_options = None.
Proof. intros Hm Hc. simpl. now rewrite Hm, Hc. Qed.

(** With both required options present, the entry point reads the
    depth, loads the command and walks it from the root. *)
Lemma generate_present (block_options : gmap string string) m c tr :
  block_options !! "module" = Some m -> block_options !! "command" = Some c ->
  generate_command_docs block_options tr =
    bind (get_depth block_options) (fun depth =>
    bind (_load_command m c) (fun click_command =>
    lift (_parse_recursively recursion_limit c click_command None depth))) tr.
Proof.
  intros Hm Hc. unfold generate_command_docs.
  rewrite (first_missing_present _ _ _ Hm Hc).
  unfold subscript, bind at 1 2, ret. now rewrite Hm, Hc.
Qed.

Lemma get_depth_pure (block_options : gmap string string) tr :
  exists r, get_depth block_options tr = (r, tr).
Proof.
  unfold get_depth.
  destruct (block_options !! "depth") as [t|]; [|eexists; reflexivity].
  destruct (int_of_str t); eexists; reflexivity.
Qed.

Lemma generate_ok_inv (block_options : gmap string string) tr out tr' :
  generate_command_docs block_options tr = (Ok out, tr') ->
  exists m c d click_command,
    block_options !! "module" = Some m /\
    block_options !! "command" = Some c /\
    get_depth block_options tr = (Ok d, tr) /\
    _load_command m c tr = (Ok click_command, tr') /\
    _parse_recursively recursion_limit c click_command None d = Ok out.
Proof.
  intros H.
  destruct (block_options !! "module") as [m|] eqn:Hm.
  2:{ unfold generate_command_docs in H. simpl in H. rewrite Hm in H. discriminate. }
  destruct (block_options !! "command") as [c|] eqn:Hc.
  2:{ unfold generate_command_docs in H. simpl in H. rewrite Hm, Hc in H. discriminate. }
  rewrite (generate_present _ _ _ _ Hm Hc) in H.
  destruct (get_depth_pure block_options tr) as [[d|e] Hd];
    unfold bind at 1 in H; rewrite Hd in H; [|discriminate].
  unfold bind, lift in H.
  destruct (_load_command m c tr) as [[click_command|e] tr1] eqn:Hload; [|discriminate].
  injection H as H <-. exists m, c, d, click_command. auto.
Qed.

Lemma load_command_ok module_path module_name tr cmd tr' :
  _load_command module_path module_name tr = (Ok cmd, tr') <->
  (exists getattr,
      import_ module_path [module_name] = ImportModule getattr /\
      getattr module_name = Some (ObjCommand cmd)) /\
  tr' = loaded tr module_path module_name.
Proof.
  unfold _load_command, bind, emit, raise, ret, loaded. split.
  - destruct (import_ module_path [module_name]) as [tb| |getattr]; try discriminate.
    destruct (getattr module_name) as [[c|ty]|] eqn:Ha; try discriminate.
    intros [= <- <-]. split; [exists getattr; auto | reflexivity].
  - intros [(getattr & -> & ->) ->]. reflexivity.
Qed.

Lemma lazyload_loop_fails get_command names acc n :
  In n names -> get_command n = None ->
  lazyload_loop get_command names acc = Err AssertionError.
Proof.
  revert acc. induction names as [|k names IH]; simpl; intros acc Hn Hg; [tauto|].
  destruct (get_command k) as [c|] eqn:Hk; [|reflexivity].
  destruct Hn as [->|Hn]; [congruence | now apply IH].
Qed.

End Walk.

(* ===================================================================== *)
(** ** The properties of the generated markdown *)
(* ===================================================================== *)

Section Properties.

Context `{RT : Runtime}.

(** C1.  Every node the walk renders contributes a usage fragment of
    exactly four lines: ["Usage:"], the opening fence, one line made of
    the command names from the root down to the node joined by spaces
    (the reverse of what the climb along the parents collects) followed
    by the usage text of the command, and the closing fence.  In the
    output of the walk the fragment follows the title and the
    description, with backspaces removed like every other line. *)
Theorem C1_usage_fragment fuel prog cmd up level :
  (height cmd <= fuel)%nat -> resolved cmd = true ->
  let ctx := mkContext cmd up in
  let usage_line := Py.join " " (names_from_root ctx) +:+ usage_text ctx in
  rev (walk_parents ctx []) = names_from_root ctx /\
  _make_usage ctx = ["Usage:"; "```"; usage_line; "```"] /\
  List.length (_make_usage ctx) = 4%nat /\
  exists rest,
    _parse_recursively fuel prog cmd up level =
      Ok (map strip (_make_title prog level ++ _make_description ctx)
            ++ ["Usage:"; "```"; strip usage_line; "```"] ++ rest).
Proof.
  intros Hh Hr ctx usage_line.
  split; [apply full_path_names|].
  split; [apply make_usage_lines|].
  split; [reflexivity|].
  destruct (parse_total fuel prog cmd up level Hh Hr) as [out Hout].
  destruct (parse_ok_inv _ _ _ _ _ _ Hout) as (fuel' & lookup & outs & _ & _ & _ & ->).
  exists (map strip (_make_options ctx) ++ concat outs).
  rewrite Hout. f_equal. unfold fragment. fold ctx.
  rewrite make_usage_lines. fold usage_line.
  rewrite !map_app, <- !app_assoc. reflexivity.
Qed.

(** C2.  Below every node the outputs of the subcommands follow the
    node's own fragment in ascending order of the subcommands' names.
    The subcommands are those of the command's mapping (the [commands]
    attribute when it is not empty, the lazily declared names otherwise);
    the order walked is the rearrangement of them that is sorted by name,
    and when the names are distinct it is the same for every order in
    which the commands were registered. *)
Theorem C2_children_sorted fuel prog cmd up level :
  (height cmd <= fuel)%nat -> resolved cmd = true ->
  let ctx := mkContext cmd up in
  exists fuel' lookup kids outs,
    fuel = S fuel' /\
    get_subcommands ctx = Ok lookup /\
    is_lookup_of cmd lookup /\
    kids = sorted name (dict_values lookup) /\
    Permutation kids (dict_values lookup) /\
    StronglySorted (key_le name) kids /\
    (forall registered,
        Permutation registered (dict_values lookup) ->
        List.NoDup (map name registered) ->
        sorted name registered = kids) /\
    Forall2 (fun c o =>
               _parse_recursively fuel' (name c) c (Some ctx) (level + 1) = Ok o)
      kids outs /\
    _parse_recursively fuel prog cmd up level =
      Ok (map strip (fragment prog ctx level) ++ concat outs).
Proof.
  intros Hh Hr ctx.
  destruct (parse_total fuel prog cmd up level Hh Hr) as [out Hout].
  destruct (parse_ok_inv _ _ _ _ _ _ Hout)
    as (fuel' & lookup & outs & -> & Hl & HF & ->).
  exists fuel', lookup, (sorted name (dict_values lookup)), outs.
  repeat split; try assumption.
  - apply (get_subcommands_lookup _ _ Hl).
  - apply sorted_perm.
  - apply sorted_sorted.
  - intros registered HP Hnd. now apply sorted_order_irrelevant.
Qed.

(** C8.  For a command nested [D] levels below the root, the path
    rebuilt in [_make_usage] by climbing the parents and reversing has
    exactly [D + 1] segments, the command names from the root down to
    that command, and the usage line joins them with spaces; each
    subcommand is one level deeper than its parent. *)
Theorem C8_invocation_path ctx :
  let full_path := rev (walk_parents ctx []) in
  List.length full_path = S (depth ctx) /\
  full_path = names_from_root ctx /\
  nth 2 (_make_usage ctx) EmptyString = Py.join " " full_path +:+ usage_text ctx /\
  (forall sub,
      depth (mkContext sub (Some ctx)) = S (depth ctx) /\
      names_from_root (mkContext sub (Some ctx)) = names_from_root ctx ++ [name sub]).
Proof.
  intros full_path. unfold full_path.
  rewrite full_path_names. repeat split.
  - apply length_names_from_root.
  - rewrite make_usage_lines. reflexivity.
Qed.

(** C3 (amended).  At a level of at least -1 the title of a node is a
    markdown header of [level + 1] number signs, a space and the display
    name, followed by an empty line.  The walk opens with that title
    (the name without its backspaces); the output of each subcommand of
    the command's mapping opens with a header of one more number sign;
    and the entry point renders the loaded command at the configured
    depth, so that the root's header has that depth plus one signs. *)
Theorem C3_title_levels fuel prog cmd up level :
  -1 <= level -> (height cmd <= fuel)%nat -> resolved cmd = true ->
  let ctx := mkContext cmd up in
  let header text lvl := Py.repeat_char "#" (lvl + 1) +:+ " " +:+ text in
  _make_title prog level = [header prog level; EmptyString] /\
  Z.of_nat (String.length (Py.repeat_char "#" (level + 1))) = level + 1 /\
  Z.of_nat (String.length (Py.repeat_char "#" (level + 1 + 1))) = level + 1 + 1 /\
  (exists fuel' lookup outs,
      fuel = S fuel' /\
      get_subcommands ctx = Ok lookup /\
      is_lookup_of cmd lookup /\
      _parse_recursively fuel prog cmd up level =
        Ok (header (strip prog) level :: EmptyString
              :: map strip (_make_description ctx ++ _make_usage ctx
                              ++ _make_options ctx)
              ++ concat outs) /\
      Forall2 (fun c o =>
                 _parse_recursively fuel' (name c) c (Some ctx) (level + 1) = Ok o /\
                 exists body',
                   o = header (strip (name c)) (level + 1) :: EmptyString :: body')
        (sorted name (dict_values lookup)) outs) /\
  (forall (block_options : gmap string string) tr m c d getattr,
      block_options !! "module" = Some m ->
      block_options !! "command" = Some c ->
      match block_options !! "depth" with
      | None => d = 0
      | Some text => int_of_str text = Some d
      end ->
      import_ m [c] = ImportModule getattr ->
      getattr c = Some (ObjCommand cmd) ->
      (height cmd <= recursion_limit)%nat ->
      exists body,
        generate_command_docs block_options tr
          = (Ok (header (strip c) d :: EmptyString :: body), loaded tr m c) /\
        _parse_recursively recursion_limit c cmd None d
          = Ok (header (strip c) d :: EmptyString :: body) /\
        (-1 <= d ->
         Z.of_nat (String.length (Py.repeat_char "#" (d + 1))) = d + 1)).
Proof.
  intros Hlevel Hh Hr ctx header.
  split; [reflexivity|].
  split; [apply PyFacts.length_repeat_char; lia|].
  split; [apply PyFacts.length_repeat_char; lia|].
  split.
  - destruct (parse_total fuel prog cmd up level Hh Hr) as [out Hout].
    destruct (parse_ok_inv _ _ _ _ _ _ Hout)
      as (fuel' & lookup & outs & -> & Hl & HF & ->).
    exists fuel', lookup, outs.
    repeat split; try assumption.
    + apply (get_subcommands_lookup _ _ Hl).
    + rewrite Hout. unfold fragment, _make_title. simpl.
      now rewrite strip_header.
    + clear -HF. induction HF as [|c o cs os Hc _ IH]; constructor; [|exact IH].
      split; [exact Hc|]. eapply parse_head, Hc.
  - intros block_options tr m c d getattr Hm Hc Hd Hi Ha Hlimit.
    destruct (parse_total recursion_limit c cmd None d Hlimit Hr) as [out Hout].
    destruct (parse_head _ _ _ _ _ _ Hout) as [body ->].
    exists body. split; [|split; [exact Hout|]].
    + rewrite (generate_present _ _ _ _ Hm Hc).
      assert (Hdepth : get_depth block_options tr = (Ok d, tr)).
      { unfold get_depth. destruct (block_options !! "depth") as [text|].
        - now rewrite Hd.
        - now subst d. }
      unfold bind at 1. rewrite Hdepth. unfold bind, lift.
      rewrite (proj2 (load_command_ok m c tr cmd (loaded tr m c))).
      * now rewrite Hout.
      * split; [exists getattr; auto | reflexivity].
    + intros Hd1. apply PyFacts.length_repeat_char. lia.
Qed.

(** A command for which the formatter writes no listing at all has no
    options block. *)
Lemma make_options_empty_listing ctx :
  format_options ctx = EmptyString -> _make_options ctx = [].
Proof. intros H. unfold _make_options. now rewrite H. Qed.

(** With the help flag in place the listing is the heading, the lines of
    the options and the line of the help flag, and the block shows
    exactly the lines of the options. *)
Lemma options_block_with_help_line ctx (options : list string) (help_line : string) :
  format_options ctx = Py.written ("Options:" :: options ++ [help_line]) ->
  Forall (fun l => Py.one_line l = true) (options ++ [help_line]) ->
  _make_options ctx =
    match options with
    | [] => []
    | _ => ["Options:"; "```code"] ++ options ++ ["```"]
    end.
Proof.
  intros Htext Hall. unfold _make_options, Py.slice_1_m1.
  rewrite Htext, PyFacts.splitlines_written
    by (constructor; [reflexivity | exact Hall]).
  simpl tl. rewrite removelast_last. destruct options; reflexivity.
Qed.

(** C4.  The options block is meant to show every visible option: the
    slice drops the heading and, as the comment in the code has it, the
    line of the help flag.  For a command whose help flag is switched
    off the listing ends with the last option instead, and that line is
    lost: a command with a single one-line option gets no options block
    at all, and one with more options loses the last of them. *)
Theorem C4_help_disabled_option_lost ctx (options : list string) :
  options <> [] ->
  format_options ctx = Py.written ("Options:" :: options) ->
  Forall (fun l => Py.one_line l = true) options ->
  _make_options ctx =
    match removelast options with
    | [] => []
    | shown => ["Options:"; "```code"] ++ shown ++ ["```"]
    end /\
  (List.length (removelast options) < List.length options)%nat /\
  (List.length options = 1%nat -> _make_options ctx = []).
Proof.
  intros Hne Htext Hall.
  assert (Hopts : _make_options ctx =
                    match removelast options with
                    | [] => []
                    | shown => ["Options:"; "```code"] ++ shown ++ ["```"]
                    end).
  { unfold _make_options, Py.slice_1_m1.
    rewrite Htext, PyFacts.splitlines_written
      by (constructor; [reflexivity | exact Hall]).
    simpl tl. destruct (removelast options); reflexivity. }
  split; [exact Hopts|]. split.
  - destruct (exists_last Hne) as (shown & final & ->).
    rewrite removelast_last, length_app. simpl. lia.
  - intros Hone. rewrite Hopts.
    destruct options as [|o [|o' rest]]; try discriminate. reflexivity.
Qed.

(** C5.  When [module] or [command] is missing from the configuration,
    [generate_command_docs] raises [MKClickConfigException] with a
    message that names a missing key and ends with the text of the
    whole configuration; the trace is left as it was, so nothing was
    imported (nor logged) before the error. *)
Theorem C5_missing_required_key (block_options : gmap string string) tr :
  block_options !! "module" = None \/ block_options !! "command" = None ->
  exists option,
    (option = "module" \/ option = "command") /\
    block_options !! option = None /\
    generate_command_docs block_options tr =
      (Err (MKClickConfigException
              ("Parameter " +:+ option
                 +:+ " is required for mkdocs-click. Provided configuration was "
                 +:+ dict_str block_options)), tr) /\
    (no_import tr -> no_import (snd (generate_command_docs block_options tr))).
Proof.
  intros H.
  destruct (first_missing_required _ H) as (option & Hfirst & Hin & Hnone).
  exists option. unfold generate_command_docs. rewrite Hfirst.
  repeat split; auto.
Qed.

(** C6.  [_load_command] logs, imports, and then ends in one of five
    ways decided by the import: an exception during the import gives an
    error whose message ends with the traceback text; [SystemExit] gives
    an error saying that the module appeared to call [sys.exit()]; a
    missing attribute and an attribute that is not a command give their
    own errors, the latter quoting the type found; otherwise the command
    is returned.  The four messages are pairwise different. *)
Theorem C6_load_command_outcomes module_path module_name tr :
  (_load_command module_path module_name tr =
     match import_ module_path [module_name] with
     | ImportRaised format_exc =>
         (Err (MKClickConfigException
                 (msg_raised module_path module_name format_exc)),
          loaded tr module_path module_name)
     | ImportSystemExit =>
         (Err (MKClickConfigException (msg_exit module_path module_name)),
          loaded tr module_path module_name)
     | ImportModule getattr =>
         match getattr module_name with
         | None =>
             (Err (MKClickConfigException (msg_missing module_path module_name)),
              loaded tr module_path module_name)
         | Some (ObjOther type_repr) =>
             (Err (MKClickConfigException (msg_type module_path type_repr)),
              loaded tr module_path module_name)
         | Some (ObjCommand parser) => (Ok parser, loaded tr module_path module_name)
         end
     end) /\
  (forall format_exc type_repr,
      msg_raised module_path module_name format_exc
        = failed_import module_path module_name
            +:+ "The following exception was raised:" +:+ String Py.LF format_exc /\
      msg_raised module_path module_name format_exc <> msg_exit module_path module_name /\
      msg_raised module_path module_name format_exc
        <> msg_missing module_path module_name /\
      msg_raised module_path module_name format_exc <> msg_type module_path type_repr /\
      msg_exit module_path module_name <> msg_missing module_path module_name /\
      msg_exit module_path module_name <> msg_type module_path type_repr /\
      msg_missing module_path module_name <> msg_type module_path type_repr).
Proof.
  split.
  - unfold _load_command, bind, emit, raise, ret, loaded.
    destruct (import_ module_path [module_name]) as [format_exc| |getattr];
      try reflexivity.
    destruct (getattr module_name) as [[parser|type_repr]|]; reflexivity.
  - intros format_exc type_repr.
    split; [reflexivity|].
    repeat split; intros H;
      try (apply PyFacts.append_cancel_l in H);
      vm_compute in H; discriminate.
Qed.

(** C7.  No line returned by the walk, and so none returned by
    [generate_command_docs], holds a backspace: the lines are the
    node's fragment and the subcommands' outputs with every backspace
    taken out. *)
Theorem C7_no_backspace fuel prog cmd up level :
  (height cmd <= fuel)%nat -> resolved cmd = true ->
  (exists out raw,
      _parse_recursively fuel prog cmd up level = Ok out /\
      out = map (Py.remove_char Py.BS) raw /\
      (exists rest, raw = fragment prog (mkContext cmd up) level ++ rest) /\
      Forall (fun l => ~ Py.contains_char Py.BS l) out) /\
  (forall block_options tr out tr',
      generate_command_docs block_options tr = (Ok out, tr') ->
      Forall (fun l => ~ Py.contains_char Py.BS l) out).
Proof.
  intros Hh Hr. split.
  - destruct (parse_total fuel prog cmd up level Hh Hr) as [out Hout].
    pose proof (parse_clean _ _ _ _ _ _ Hout) as Hclean.
    destruct (parse_ok_inv _ _ _ _ _ _ Hout) as (fuel' & lookup & outs & _ & _ & HF & ->).
    exists (map strip (fragment prog (mkContext cmd up) level) ++ concat outs),
      (fragment prog (mkContext cmd up) level ++ concat outs).
    repeat split; try assumption.
    + fold strip. rewrite map_app. f_equal. symmetry. apply concat_stripped.
      clear -HF. induction HF as [|c o cs os Hc _ IH]; constructor; [|exact IH].
      eapply parse_stripped, Hc.
    + eauto.
  - intros block_options tr out tr' H.
    apply generate_ok_inv in H as (m & c & d & click & _ & _ & _ & _ & Hp).
    eapply parse_clean, Hp.
Qed.

(** C9.  For a multicommand whose [commands] attribute is absent or
    empty the lookup is loaded lazily: when every declared name
    resolves, no assertion fails and the mapping returned has exactly
    the declared names as keys, each once and each bound to the command
    [get_command] gives for it; a declared name that does not resolve
    fails the assertion.  A command that is no multicommand and has no
    commands gets the empty mapping. *)
Theorem C9_lazy_enumeration ctx :
  default [] (commands (command ctx)) = [] ->
  (forall names get_command,
      multicommand (command ctx) = Some (names, get_command) ->
      ((forall n, In n names -> get_command n <> None) ->
       exists lookup,
         get_subcommands ctx = Ok lookup /\
         _get_lazyload_commands (names, get_command) ctx = Ok lookup /\
         List.NoDup (dict_keys lookup) /\
         (forall n, In n (dict_keys lookup) <-> In n names) /\
         (forall n, In n names -> dict_get lookup n = get_command n) /\
         (forall n, ~ In n names -> dict_get lookup n = None)) /\
      (forall n, In n names -> get_command n = None ->
                 get_subcommands ctx = Err AssertionError)) /\
  (multicommand (command ctx) = None -> get_subcommands ctx = Ok []).
Proof.
  intros He. unfold get_subcommands. rewrite He. split.
  - intros names get Hm. rewrite Hm. unfold _get_lazyload_commands. simpl.
    split.
    + intros Hall.
      destruct (lazyload_loop_total get names [] Hall) as [d Hd].
      pose proof (lazyload_loop_inv _ _ _ _ Hd) as (Hin & Hout & Hkeys & Hnd & _).
      exists d. repeat split; auto.
      * apply Hnd. constructor.
      * intros Hn. apply Hkeys in Hn as [Hn|[]]. exact Hn.
      * intros Hn. apply Hkeys. now left.
      * intros n Hn. apply Hin, Hn.
    + intros n Hn Hg. eapply lazyload_loop_fails; eassumption.
  - intros ->. reflexivity.
Qed.

(** C10 (amended).  With [module] and [command] present, a [depth] that
    [int] rejects makes [generate_command_docs] raise [ValueError], not
    [MKClickConfigException], with the trace unchanged: nothing was
    imported.  Without [depth] the walk starts at level 0. *)
Theorem C10_depth_conversion (block_options : gmap string string) m c tr :
  block_options !! "module" = Some m ->
  block_options !! "command" = Some c ->
  (forall text,
      block_options !! "depth" = Some text -> int_of_str text = None ->
      generate_command_docs block_options tr = (Err ValueError, tr) /\
      (forall msg, Err ValueError <> Err (A:=list string) (MKClickConfigException msg))) /\
  (forall text d,
      block_options !! "depth" = Some text -> int_of_str text = Some d ->
      generate_command_docs block_options tr =
        bind (_load_command m c) (fun click_command =>
          lift (_parse_recursively recursion_limit c click_command None d)) tr) /\
  (block_options !! "depth" = None ->
   generate_command_docs block_options tr =
     bind (_load_command m c) (fun click_command =>
       lift (_parse_recursively recursion_limit c click_command None 0)) tr).
Proof.
  intros Hm Hc. rewrite (generate_present _ _ _ _ Hm Hc).
  unfold get_depth. split; [|split].
  - intros text Ht Hi. split; [|discriminate].
    unfold bind at 1. now rewrite Ht, Hi.
  - intros text d Ht Hi. unfold bind at 1. now rewrite Ht, Hi.
  - intros Hd. unfold bind at 1. now rewrite Hd.
Qed.

End Properties.

(* ===================================================================== *)
(** ** The properties on the sample tree *)
(* ===================================================================== *)

Section Samples.

Import Demo.

Example splitlines_mixed :
  Py.splitlines
    ("a" +:+ String Py.CR (String Py.LF ("b" +:+ String Py.LF (String Py.VT "c"))))
  = ["a"; "b"; ""; "c"].
Proof. reflexivity. Qed.

Example splitlines_trailing_newline :
  Py.splitlines ("a" +:+ String Py.LF EmptyString) = ["a"]
  /\ Py.splitlines (String Py.LF EmptyString) = [EmptyString]
  /\ Py.splitlines EmptyString = [].
Proof. repeat split. Qed.

Example rstrip_newlines :
  Py.rstrip Py.LF (String Py.LF ("a" +:+ String Py.LF (String Py.LF EmptyString)))
  = String Py.LF "a".
Proof. reflexivity. Qed.

Example join_names : Py.join " " ["tool"; "main"; "add"] = "tool main add".
Proof. reflexivity. Qed.

Example repeat_negative : Py.repeat_char "#" (-2) = EmptyString.
Proof. reflexivity. Qed.

Example slice_short : Py.slice_1_m1 ["Options:"; help_line] = [].
Proof. reflexivity. Qed.

Example sorted_is_stable :
  map fst (sorted snd [(1, "b"); (2, "a"); (3, "b"); (4, "a")]) = [2; 4; 1; 3].
Proof. reflexivity. Qed.

Example main_docs :
  _parse_recursively 3 "main" main None 0 =
    Ok ["# main"; ""; "Usage:"; "```"; "main [OPTIONS] COMMAND [ARGS]..."; "```";
        "## add"; ""; "Usage:"; "```"; "main add [OPTIONS]"; "```";
        "Options:"; "```code"; "  --verbose  Say more."; "```";
        "## zap"; ""; "Zap it."; ""; "Usage:"; "```"; "main zap [OPTIONS]"; "```"].
Proof. reflexivity. Qed.

Example quiet_docs :
  _parse_recursively 1 "quiet" quiet None 0 =
    Ok ["# quiet"; ""; "Kept as written."; "";
        "Usage:"; "```"; "quiet [OPTIONS]"; "```"].
Proof. reflexivity. Qed.

Example broken_docs : _parse_recursively 5 "broken" broken None 0 = Err AssertionError.
Proof. reflexivity. Qed.

Example too_deep : _parse_recursively 2 "tool" tool None 0 = Err RecursionError.
Proof. reflexivity. Qed.

Lemma C1_usage_fragment_witness :
  (height main <= 3)%nat /\ resolved main = true /\
  exists rest,
    _parse_recursively 3 "main" main None 0 =
      Ok (["# main"; ""] ++
          ["Usage:"; "```"; "main [OPTIONS] COMMAND [ARGS]..."; "```"] ++ rest).
Proof.
  split; [vm_compute; lia|]. split; [reflexivity|].
  destruct (C1_usage_fragment 3 "main" main None 0)
    as (_ & _ & _ & rest & H); [vm_compute; lia | reflexivity |].
  exists rest. exact H.
Defined.

Lemma C2_children_sorted_witness :
  (height main <= 3)%nat /\ resolved main = true /\
  exists outs,
    Forall2 (fun c o => _parse_recursively 2 (name c) c
                          (Some (mkContext main None)) 1 = Ok o)
      [add; zap] outs /\
    _parse_recursively 3 "main" main None 0 =
      Ok (map strip (fragment "main" (mkContext main None) 0) ++ concat outs).
Proof.
  split; [vm_compute; lia|]. split; [reflexivity|].
  destruct (C2_children_sorted 3 "main" main None 0)
    as (fuel' & lookup & kids & outs & Hf & _ & Hpin & Hk & _ & _ & _ & HF & Hout);
    [vm_compute; lia | reflexivity |].
  injection Hf as <-. unfold is_lookup_of in Hpin. simpl in Hpin. subst lookup kids.
  exists outs. split; [exact HF | exact Hout].
Defined.

Lemma C3_title_levels_witness :
  -1 <= 2 /\ (height tool <= 3)%nat /\ resolved tool = true /\
  exists rest, _parse_recursively 3 "tool" tool None 2 = Ok ("### tool" :: "" :: rest).
Proof.
  split; [lia|]. split; [vm_compute; lia|]. split; [reflexivity|].
  destruct (C3_title_levels 3 "tool" tool None 2)
    as (_ & _ & _ & (fuel' & lookup & outs & _ & _ & _ & H & _) & _);
    [lia | vm_compute; lia | reflexivity |].
  eexists. exact H.
Defined.

(** C3 as first stated fails below level -1: with the depth "-2" the
    root is walked at level -2 and its subcommands at level -1, and
    neither header has a number sign, so the header of a subcommand is
    not one level above that of its parent and the root's is not at
    depth plus one. *)
Lemma C3_counterexample :
  let block_options : gmap string string :=
    <["depth" := "-2"]> (<["module" := "pkg.cli"]> {[ "command" := "main" ]}) in
  int_of_str "-2" = Some (-2) /\
  exists out tr,
    generate_command_docs block_options [] = (Ok out, tr) /\
    nth 0 out EmptyString = " main" /\
    nth 6 out EmptyString = " add" /\
    Z.of_nat (String.length (Py.repeat_char "#" (-2 + 1))) <> -2 + 1.
Proof.
  split; [reflexivity|].
  eexists. eexists. split; [reflexivity|].
  split; [reflexivity|]. split; [reflexivity|]. discriminate.
Qed.

Lemma C4_help_disabled_option_lost_witness :
  let ctx := mkContext bare None in
  format_options ctx = Py.written ["Options:"; "  --verbose  Say more."] /\
  _make_options ctx = [].
Proof.
  split; [reflexivity|].
  refine (proj2 (proj2 (C4_help_disabled_option_lost (mkContext bare None)
                          ["  --verbose  Say more."] _ _ _)) _).
  - discriminate.
  - reflexivity.
  - repeat constructor.
  - reflexivity.
Defined.

Lemma C5_missing_required_key_witness :
  let block_options : gmap string string := {[ "module" := "pkg.cli" ]} in
  (block_options !! "module" = None \/ block_options !! "command" = None) /\
  exists option,
    generate_command_docs block_options [] =
      (Err (MKClickConfigException
              ("Parameter " +:+ option
                 +:+ " is required for mkdocs-click. Provided configuration was "
                 +:+ dict_str block_options)), []).
Proof.
  split; [right; reflexivity|].
  destruct (C5_missing_required_key {[ "module" := "pkg.cli" ]} [])
    as (option & _ & _ & H & _); [right; reflexivity|].
  exists option. exact H.
Defined.

Lemma C7_no_backspace_witness :
  (height quiet <= 1)%nat /\ resolved quiet = true /\
  exists out,
    _parse_recursively 1 "quiet" quiet None 0 = Ok out /\
    Forall (fun l => ~ Py.contains_char Py.BS l) out.
Proof.
  split; [vm_compute; lia|]. split; [reflexivity|].
  destruct (C7_no_backspace 1 "quiet" quiet None 0)
    as ((out & raw & H & _ & _ & Hclean) & _); [vm_compute; lia | reflexivity |].
  exists out. split; assumption.
Defined.

Lemma C9_lazy_enumeration_witness :
  let ctx := mkContext plugins None in
  default [] (commands (command ctx)) = [] /\
  exists lookup,
    get_subcommands ctx = Ok lookup /\
    forall n, In n (dict_keys lookup) <-> In n ["zap"; "add"; "zap"].
Proof.
  split; [reflexivity|].
  destruct (C9_lazy_enumeration (mkContext plugins None) eq_refl) as [Hlazy _].
  destruct (Hlazy _ _ eq_refl) as [Hok _].
  destruct Hok as (lookup & Hl & _ & _ & Hkeys & _).
  - intros n Hn. simpl in Hn.
    destruct Hn as [<-|[<-|[<-|[]]]]; discriminate.
  - exists lookup. split; assumption.
Defined.

Lemma C10_depth_conversion_witness :
  let block_options : gmap string string :=
    <["depth" := "x"]> (<["module" := "pkg.cli"]> {[ "command" := "main" ]}) in
  block_options !! "module" = Some "pkg.cli" /\
  block_options !! "command" = Some "main" /\
  block_options !! "depth" = Some "x" /\ int_of_str "x" = None /\
  generate_command_docs block_options [] = (Err ValueError, []).
Proof.
  split; [reflexivity|]. split; [reflexivity|].
  split; [reflexivity|]. split; [reflexivity|].
  refine (proj1 (proj1 (C10_depth_conversion _ "pkg.cli" "main" [] _ _) "x" _ _));
    reflexivity.
Defined.

(** C10 as first stated fails: a configuration with an unreadable
    [depth] but without [module] raises the configuration error, not
    [ValueError]. *)
Lemma C10_counterexample :
  let block_options : gmap string string := {[ "depth" := "x" ]} in
  block_options !! "depth" = Some "x" /\ int_of_str "x" = None /\
  generate_command_docs block_options [] =
    (Err (MKClickConfigException
            "Parameter module is required for mkdocs-click. Provided configuration was {'depth': 'x'}"),
     []) /\
  fst (generate_command_docs block_options []) <> Err ValueError.
Proof.
  split; [reflexivity|]. split; [reflexivity|].
  split; [reflexivity|]. vm_compute. discriminate.
Qed.

End Samples.

(* ===================================================================== *)
(** ** Further properties of the fragment builders *)
(* ===================================================================== *)

Section Fragments.

Context `{RT : Runtime}.

#[local] Arguments String.append !s1 s2 : simpl nomatch.

Lemma splitlines_plain c s :
  Py.is_linebreak c = false ->
  Py.splitlines (String c s) =
    match Py.splitlines s with
    | [] => [String c EmptyString]
    | l :: ls => String c l :: ls
    end.
Proof. intros H. cbn [Py.splitlines]. now rewrite H. Qed.

Lemma splitlines_nonempty c s : Py.splitlines (String c s) <> [].
Proof.
  destruct (Py.is_linebreak c) eqn:Hc.
  - cbn [Py.splitlines]. rewrite Hc. discriminate.
  - rewrite (splitlines_plain _ _ Hc). destruct (Py.splitlines s); discriminate.
Qed.

Lemma splitlines_one_line l :
  Py.one_line l = true -> l <> EmptyString -> Py.splitlines l = [l].
Proof.
  unfold Py.one_line. induction l as [|c l IH]; [congruence|].
  cbn [list_ascii_of_string forallb]. intros H _.
  apply andb_prop in H as [Hc Hl]. apply negb_true_iff in Hc.
  rewrite (splitlines_plain _ _ Hc).
  destruct l as [|d l]; [reflexivity|].
  rewrite IH; [reflexivity | exact Hl | discriminate].
Qed.

(** Lines joined by newlines are read back by [splitlines], provided the
    last one is not empty. *)
Lemma splitlines_join ls :
  ls <> [] -> Forall (fun l => Py.one_line l = true) ls ->
  List.last ls EmptyString <> EmptyString ->
  Py.splitlines (Py.join (String Py.LF EmptyString) ls) = ls.
Proof.
  induction ls as [|l ls IH]; [congruence|]. intros _ Hall Hlast.
  inversion Hall as [|? ? Hl Hls]; subst.
  destruct ls as [|l2 ls].
  - apply splitlines_one_line; assumption.
  - change (Py.join (String Py.LF EmptyString) (l :: l2 :: ls))
      with (l +:+ String Py.LF (Py.join (String Py.LF EmptyString) (l2 :: ls))).
    rewrite PyFacts.splitlines_line by exact Hl.
    f_equal. apply IH; [discriminate | exact Hls | exact Hlast].
Qed.

Lemma join_snoc sep xs x :
  xs <> [] -> Py.join sep (xs ++ [x]) = Py.join sep xs +:+ sep +:+ x.
Proof.
  induction xs as [|a xs IH]; [congruence|]. intros _.
  destruct xs as [|b xs]; [reflexivity|].
  change (Py.join sep ((a :: b :: xs) ++ [x]))
    with (a +:+ sep +:+ Py.join sep ((b :: xs) ++ [x])).
  rewrite IH by discriminate.
  change (Py.join sep (a :: b :: xs)) with (a +:+ sep +:+ Py.join sep (b :: xs)).
  now rewrite !PyFacts.append_assoc.
Qed.

Lemma names_from_root_nonempty ctx : names_from_root ctx <> [].
Proof.
  destruct ctx as [cmd [up|]]; simpl; [|discriminate].
  destruct (names_from_root up); discriminate.
Qed.

(** X1.  The description is empty exactly when the command has neither a
    help text nor a short help (absent or empty); a help text wins over
    the short help, which is used only when the help is absent or empty;
    and a description that is not empty has at least two lines, the last
    of them empty. *)
Theorem description_cases ctx :
  let h := help (command ctx) in
  let sh := short_help (command ctx) in
  (_make_description ctx = [] <-> Py.truthy h = false /\ Py.truthy sh = false) /\
  (forall text, h = Some text -> text <> EmptyString ->
                _make_description ctx = Py.splitlines text ++ [EmptyString]) /\
  (forall text, Py.truthy h = false -> sh = Some text -> text <> EmptyString ->
                _make_description ctx = Py.splitlines text ++ [EmptyString]) /\
  (_make_description ctx <> [] ->
   (2 <= List.length (_make_description ctx))%nat /\
   List.last (_make_description ctx) "x" = EmptyString).
Proof.
  intros h sh. unfold _make_description. fold h sh.
  assert (Hshape : forall c s,
             (2 <= List.length (Py.splitlines (String c s) ++ [EmptyString]))%nat /\
             List.last (Py.splitlines (String c s) ++ [EmptyString]) "x" = EmptyString).
  { intros c s. split; [|apply List.last_last].
    pose proof (splitlines_nonempty c s) as Hne.
    destruct (Py.splitlines (String c s)) as [|x xs]; [congruence|].
    rewrite length_app. simpl. lia. }
  assert (Hne : forall c s, Py.splitlines (String c s) ++ [EmptyString] <> [])
    by (intros c s H; apply app_eq_nil in H as [_ H]; discriminate).
  unfold Py.or_.
  destruct h as [[|c s]|]; simpl; (destruct sh as [[|c' s']|]; simpl);
    (split; [split; [intros H; try (exfalso; eapply Hne, H); auto
                    | intros [H1 H2]; try discriminate; reflexivity]|]);
    (split; [intros text Ht Hn; try discriminate;
             injection Ht as <-; try congruence; reflexivity|]);
    (split; [intros text Hf Ht Hn; try discriminate;
             injection Ht as <-; try congruence; reflexivity|]);
    intros H; try congruence; apply Hshape.
Qed.

(** X2.  A help text made of lines joined by newlines, the last line not
    empty, is rendered as those lines followed by one empty line. *)
Theorem description_of_joined_lines ctx ls :
  help (command ctx) = Some (Py.join (String Py.LF EmptyString) ls) ->
  ls <> [] -> Forall (fun l => Py.one_line l = true) ls ->
  List.last ls EmptyString <> EmptyString ->
  _make_description ctx = ls ++ [EmptyString].
Proof.
  intros Hh Hne Hall Hlast.
  pose proof (splitlines_join ls Hne Hall Hlast) as Hs.
  unfold _make_description. rewrite Hh.
  destruct (Py.join (String Py.LF EmptyString) ls) as [|c s] eqn:Ej.
  - simpl in Hs. congruence.
  - unfold Py.or_. simpl Py.truthy. cbv iota. now rewrite Hs.
Qed.

End Fragments.

Section Blocks.

Context `{RT : Runtime}.

(** X3.  The options block depends on the number of lines of the listing
    only through its middle: a listing of at most two lines gives no
    block; a longer one gives ["Options:"], the fence tagged [code], the
    lines between the first and the last one, and the closing fence, one
    line more than the listing has. *)
Theorem options_block_shape ctx :
  let listing := Py.splitlines (format_options ctx) in
  ((List.length listing <= 2)%nat -> _make_options ctx = []) /\
  ((2 < List.length listing)%nat ->
   exists first middle final,
     listing = first :: middle ++ [final] /\ middle <> [] /\
     _make_options ctx = ["Options:"; "```code"] ++ middle ++ ["```"] /\
     List.length (_make_options ctx) = S (List.length listing)).
Proof.
  intros listing. unfold _make_options, Py.slice_1_m1. fold listing.
  destruct listing as [|first rest]; [split; [reflexivity | simpl; lia]|].
  simpl tl.
  destruct rest as [|r rest']; [split; [reflexivity | simpl; lia]|].
  destruct (exists_last (l := r :: rest')) as (middle & final & E); [discriminate|].
  rewrite E, removelast_last. split.
  - intros Hlen. simpl in Hlen. rewrite length_app in Hlen. simpl in Hlen.
    destruct middle; [reflexivity | simpl in Hlen; lia].
  - intros Hlen. exists first, middle, final.
    destruct middle as [|m ms]; [simpl in Hlen; lia|].
    split; [reflexivity|]. split; [discriminate|]. split; [reflexivity|].
    simpl. rewrite !length_app. simpl. lia.
Qed.

(** X4.  Of a listing written line by line, the first and the last line
    never reach the options block, whatever they hold: the block shows
    the lines in between, and there is no block when there are none. *)
Theorem options_first_and_last_dropped ctx heading lines :
  format_options ctx = Py.written (heading :: lines) ->
  Forall (fun l => Py.one_line l = true) (heading :: lines) ->
  _make_options ctx =
    match removelast lines with
    | [] => []
    | shown => ["Options:"; "```code"] ++ shown ++ ["```"]
    end.
Proof.
  intros Htext Hall. unfold _make_options, Py.slice_1_m1.
  rewrite Htext, PyFacts.splitlines_written by exact Hall.
  simpl tl. destruct (removelast lines); reflexivity.
Qed.

(** X6.  The usage line of a subcommand is the invocation path of its
    parent, a space, the subcommand's own name and its usage text: the
    path of the parent is a prefix of the path of the child. *)
Theorem child_usage_extends_parent ctx sub :
  let child := mkContext sub (Some ctx) in
  nth 2 (_make_usage ctx) EmptyString
    = Py.join " " (names_from_root ctx) +:+ usage_text ctx /\
  nth 2 (_make_usage child) EmptyString
    = Py.join " " (names_from_root ctx) +:+ " " +:+ name sub +:+ usage_text child.
Proof.
  intros child. unfold child. rewrite !make_usage_lines. split; [reflexivity|].
  cbn [nth names_from_root].
  rewrite join_snoc by apply names_from_root_nonempty.
  now rewrite !PyFacts.append_assoc.
Qed.

End Blocks.

(* ===================================================================== *)
(** ** Further properties of the subcommand lookup *)
(* ===================================================================== *)

Section Enumeration.

Context `{RT : Runtime}.

Lemma lazyload_loop_err get_command names acc e :
  lazyload_loop get_command names acc = Err e ->
  e = AssertionError /\ exists n, In n names /\ get_command n = None.
Proof.
  revert acc. induction names as [|k names IH]; simpl; intros acc H; [discriminate|].
  destruct (get_command k) as [c|] eqn:Hk.
  - destruct (IH _ H) as (He & n & Hn & Hg). eauto 6.
  - injection H as <-. eauto.
Qed.

Lemma dict_set_fresh {A} (d : Dict A) k v :
  ~ In k (dict_keys d) -> dict_set d k v = d ++ [(k, v)].
Proof.
  unfold dict_keys. induction d as [|[k0 v0] d IH]; simpl; intros H; [reflexivity|].
  destruct (String.eqb k0 k) eqn:E.
  - apply String.eqb_eq in E. tauto.
  - f_equal. apply IH. tauto.
Qed.

Lemma lazyload_loop_ordered get_command names : forall acc,
  List.NoDup names ->
  (forall n, In n names -> ~ In n (dict_keys acc)) ->
  (forall n, In n names -> get_command n <> None) ->
  exists cs,
    Forall2 (fun n c => get_command n = Some c) names cs /\
    lazyload_loop get_command names acc = Ok (acc ++ combine names cs).
Proof.
  induction names as [|k names IH]; intros acc Hnd Hfresh Hall; simpl.
  - exists []. split; [constructor | now rewrite app_nil_r].
  - inversion Hnd as [|? ? Hk Hnd']; subst.
    destruct (get_command k) as [c|] eqn:Hg;
      [|exfalso; apply (Hall k); [now left | exact Hg]].
    rewrite dict_set_fresh by (apply Hfresh; now left).
    destruct (IH (acc ++ [(k, c)]) Hnd') as (cs & HF & Hloop).
    + intros n Hn Hin. unfold dict_keys in Hin. rewrite map_app in Hin.
      apply in_app_or in Hin as [Hin|[<-|[]]]; [|exact (Hk Hn)].
      apply (Hfresh n); [now right | exact Hin].
    + intros n Hn. apply Hall. now right.
    + exists (c :: cs). split; [now constructor|].
      rewrite Hloop. simpl. now rewrite <- app_assoc.
Qed.

Lemma leb_refl s : String.leb s s = true.
Proof.
  unfold String.leb.
  pose proof (proj2 (String_as_OT.cmp_eq s s) eq_refl) as H.
  unfold String_as_OT.cmp in H. now rewrite H.
Qed.

Lemma filter_insert_by {A} (key : A -> string) n x xs :
  List.filter (fun y => String.eqb (key y) n) (insert_by key x xs)
  = List.filter (fun y => String.eqb (key y) n) (x :: xs).
Proof.
  induction xs as [|y ys IH]; [reflexivity|].
  cbn [insert_by]. destruct (String.leb (key x) (key y)) eqn:E; [reflexivity|].
  cbn [List.filter] in *. rewrite IH.
  destruct (String.eqb (key x) n) eqn:Ex, (String.eqb (key y) n) eqn:Ey; try reflexivity.
  apply String.eqb_eq in Ex, Ey. rewrite Ex, Ey, leb_refl in E. discriminate.
Qed.

Lemma get_subcommands_err ctx e :
  get_subcommands ctx = Err e <->
  e = AssertionError /\
  default [] (commands (command ctx)) = [] /\
  exists names get_command n,
    multicommand (command ctx) = Some (names, get_command) /\
    In n names /\ get_command n = None.
Proof.
  unfold get_subcommands, _get_lazyload_commands. split.
  - intros H.
    destruct (default [] (commands (command ctx))) as [|p l];
      [|destruct (multicommand (command ctx)); discriminate].
    destruct (multicommand (command ctx)) as [[names get]|]; [|discriminate].
    simpl in H. apply lazyload_loop_err in H as (-> & n & Hn & Hg).
    repeat split. exists names, get, n. auto.
  - intros (-> & He & names & get & n & Hm & Hn & Hg).
    rewrite He, Hm. simpl. eapply lazyload_loop_fails; eassumption.
Qed.

(** X7.  The lookup of the subcommands fails in one way only: with
    [AssertionError], at a multicommand whose [commands] attribute is
    absent or empty and which declares a name that [get_command] does not
    resolve.  A non-empty [commands] attribute is returned as it is,
    whatever [get_command] would do, and for a command that is no
    multicommand the attribute, or the empty mapping when it is absent,
    is returned. *)
Theorem get_subcommands_outcome ctx :
  (forall e,
      get_subcommands ctx = Err e <->
      e = AssertionError /\
      default [] (commands (command ctx)) = [] /\
      exists names get_command n,
        multicommand (command ctx) = Some (names, get_command) /\
        In n names /\ get_command n = None) /\
  (forall p rest,
      commands (command ctx) = Some (p :: rest) ->
      get_subcommands ctx = Ok (p :: rest)) /\
  (multicommand (command ctx) = None ->
   get_subcommands ctx = Ok (default [] (commands (command ctx)))).
Proof.
  split; [intros e; apply get_subcommands_err|]. split.
  - intros p rest He. unfold get_subcommands. rewrite He. simpl.
    now destruct (multicommand (command ctx)).
  - intros Hm. unfold get_subcommands. rewrite Hm.
    now destruct (default [] (commands (command ctx))).
Qed.

(** X8.  When the declared names are distinct and all resolve, the lazily
    loaded mapping lists them in the order they were declared, each with
    the command [get_command] returns for it. *)
Theorem lazy_lookup_in_declaration_order names get_command ctx :
  List.NoDup names ->
  (forall n, In n names -> get_command n <> None) ->
  exists cs,
    Forall2 (fun n c => get_command n = Some c) names cs /\
    _get_lazyload_commands (names, get_command) ctx = Ok (combine names cs).
Proof.
  intros Hnd Hall. unfold _get_lazyload_commands. simpl.
  destruct (lazyload_loop_ordered get_command names [] Hnd) as (cs & HF & H); auto.
  exists cs. split; assumption.
Qed.

(** X9.  The sort used for the subcommands is stable: the commands that
    share a name come out in the order they had in the lookup. *)
Theorem sorted_keeps_order_of_equal_names (cmds : list Command) n :
  List.filter (fun c => String.eqb (name c) n) (sorted name cmds)
  = List.filter (fun c => String.eqb (name c) n) cmds.
Proof.
  induction cmds as [|c cmds IH]; [reflexivity|].
  cbn [sorted]. rewrite filter_insert_by. cbn [List.filter]. now rewrite IH.
Qed.

End Enumeration.

(* ===================================================================== *)
(** ** Further properties of the walk *)
(* ===================================================================== *)

Section WalkOutcomes.

Context `{RT : Runtime}.

Lemma extend_each_stable {A} (f g : A -> Result (list string)) xs lines r :
  (forall x rx, In x xs -> f x = rx -> rx <> Err RecursionError -> g x = rx) ->
  extend_each f xs lines = r -> r <> Err RecursionError ->
  extend_each g xs lines = r.
Proof.
  revert lines. induction xs as [|x xs IH]; simpl; intros lines Hfg H Hr; [exact H|].
  destruct (f x) as [o|e] eqn:Hx; simpl in H.
  - rewrite (Hfg x (Ok o)); [|now left|exact Hx|discriminate]. simpl.
    apply IH; [|exact H|exact Hr]. intros y ry Hy. apply Hfg. now right.
  - subst r. rewrite (Hfg x (Err e)); [reflexivity|now left|exact Hx|exact Hr].
Qed.

Lemma dict_get_in_values {A} (d : Dict A) k v :
  dict_get d k = Some v -> In v (dict_values d).
Proof.
  unfold dict_values. induction d as [|[k0 v0] d IH]; simpl; [discriminate|].
  destruct (String.eqb k0 k); [intros [= ->]; now left | auto].
Qed.

Lemma resolved_intro ctx lookup :
  get_subcommands ctx = Ok lookup ->
  Forall (fun c => resolved c = true) (dict_values lookup) ->
  resolved (command ctx) = true.
Proof.
  destruct ctx as [[n h sh eager multi] up].
  unfold get_subcommands, _get_lazyload_commands. cbn [command commands multicommand].
  intros H Hall.
  assert (Hlazy : default [] eager = [] ->
            match multi with
            | None => true
            | Some (names, get_command) =>
                (fix go (l : list string) : bool :=
                   match l with
                   | [] => true
                   | n :: l' =>
                       match get_command n with
                       | Some c => resolved c && go l'
                       | None => false
                       end
                   end) names
            end = true).
  { intros He. rewrite He in H.
    destruct multi as [[names get]|]; [|reflexivity].
    cbn [fst snd] in H. apply lazyload_loop_inv in H as (Hin & _).
    assert (Hres : forall k, In k names ->
                     exists c, get k = Some c /\ resolved c = true).
    { intros k Hk. destruct (Hin k Hk) as [Hne Hget].
      destruct (get k) as [c|] eqn:Hg; [|congruence].
      exists c. split; [reflexivity|].
      rewrite List.Forall_forall in Hall. eapply Hall, dict_get_in_values, Hget. }
    clear -Hres. induction names as [|k names IH]; [reflexivity|].
    destruct (Hres k (or_introl eq_refl)) as (c & -> & ->).
    apply IH. intros k' Hk'. apply Hres. now right. }
  destruct eager as [[|p l]|]; cbn [resolved]; try (apply Hlazy; reflexivity).
  assert (lookup = p :: l) as -> by (simpl in H; destruct multi; congruence).
  clear -Hall. destruct p as [k c]. simpl in Hall.
  inversion Hall as [|? ? Hc Hl]; subst.
  apply andb_true_intro. split; [exact Hc|]. clear -Hl.
  induction l as [|[k' c'] l IH]; simpl in *; [reflexivity|].
  inversion Hl; subst. apply andb_true_intro. split; auto.
Qed.

Lemma parse_ok_resolved fuel : forall prog cmd up level out,
  _parse_recursively fuel prog cmd up level = Ok out -> resolved cmd = true.
Proof.
  induction fuel as [|fuel IH]; intros prog cmd up level out H; [discriminate|].
  apply parse_ok_inv in H as (fuel' & lookup & outs & [= <-] & Hl & HF & _).
  apply (resolved_intro _ _ Hl).
  apply List.Forall_forall. intros c Hc.
  assert (In c (sorted name (dict_values lookup))) as Hin
      by (eapply Permutation_in; [symmetry; apply sorted_perm | exact Hc]).
  clear -IH HF Hin. induction HF as [|c' o cs os Hc' _ IHF]; [destruct Hin|].
  destruct Hin as [<-|Hin]; [eapply IH, Hc' | now apply IHF].
Qed.

Lemma parse_one_more fuel : forall prog cmd up level r,
  _parse_recursively fuel prog cmd up level = r ->
  r <> Err RecursionError ->
  _parse_recursively (S fuel) prog cmd up level = r.
Proof.
  induction fuel as [|k IH]; intros prog cmd up level r H Hr.
  - simpl in H. congruence.
  - rewrite parse_step in H. rewrite (parse_step (S k)). cbv zeta in *.
    destruct (get_subcommands (mkContext cmd up)) as [lookup|e] eqn:Hl;
      [|exact H].
    cbn [rbind] in *.
    match type of H with
    | rbind (extend_each ?f ?xs ?ls) _ = _ =>
        destruct (extend_each f xs ls) as [lines|e] eqn:He
    end;
      pose proof (extend_each_stable _
                    (fun c => _parse_recursively (S k) (name c) c
                                (Some (mkContext cmd up)) (level + 1))
                    _ _ _ (fun c rc _ Hc Hrc => IH _ _ _ _ _ Hc Hrc) He) as Hs.
    + rewrite Hs by discriminate. exact H.
    + cbn [rbind] in H. subst r. now rewrite Hs.
Qed.

(** X10.  The walk returns lines only when every lazily declared name
    it meets resolves, and it raises [AssertionError] only when one of
    them does not. *)
Theorem walk_assertion_cause fuel prog cmd up level :
  (forall out,
      _parse_recursively fuel prog cmd up level = Ok out -> resolved cmd = true) /\
  (_parse_recursively fuel prog cmd up level = Err AssertionError ->
   resolved cmd = false).
Proof.
  split; [intros out H; eapply parse_ok_resolved, H|].
  intros H. destruct (resolved cmd) eqn:Hr; [exfalso | reflexivity].
  assert (Hmore : forall extra,
             _parse_recursively (extra + fuel) prog cmd up level
             = Err AssertionError).
  { induction extra as [|extra IHe]; [exact H|].
    apply parse_one_more; [exact IHe | discriminate]. }
  destruct (parse_total (height cmd + fuel) prog cmd up level) as [out Hout];
    [lia | exact Hr |].
  rewrite Hmore in Hout. discriminate.
Qed.

(** X11.  A larger recursion budget does not change the outcome: what
    the walk returns or raises, short of [RecursionError], it returns or
    raises under every larger budget as well. *)
Theorem walk_outcome_stable_under_budget fuel extra prog cmd up level r :
  _parse_recursively fuel prog cmd up level = r ->
  r <> Err RecursionError ->
  _parse_recursively (extra + fuel) prog cmd up level = r.
Proof.
  intros H Hr. induction extra as [|extra IHe]; [exact H|].
  now apply parse_one_more.
Qed.

End WalkOutcomes.

(* ===================================================================== *)
(** ** Further properties of the entry point *)
(* ===================================================================== *)

Section EntryPoint.

Context `{RT : Runtime}.

Lemma load_command_trace module_path module_name tr :
  snd (_load_command module_path module_name tr) = loaded tr module_path module_name.
Proof.
  unfold _load_command, bind, emit, raise, ret, loaded.
  destruct (import_ module_path [module_name]) as [tb| |getattr]; try reflexivity.
  destruct (getattr module_name) as [[c|ty]|]; reflexivity.
Qed.

(** X5.  At a negative level the title carries no number sign at all:
    the walk opens with a space and the name. *)
Theorem negative_level_title fuel prog cmd up level :
  level < 0 -> (height cmd <= fuel)%nat -> resolved cmd = true ->
  _make_header prog level = " " +:+ prog /\
  exists body,
    _parse_recursively fuel prog cmd up level
      = Ok ((" " +:+ strip prog) :: EmptyString :: body).
Proof.
  intros Hneg Hh Hr.
  assert (Hhead : forall text, _make_header text level = " " +:+ text).
  { intros text. unfold _make_header, Py.repeat_char.
    destruct (level + 1) eqn:E; try lia; reflexivity. }
  split; [apply Hhead|].
  destruct (parse_total fuel prog cmd up level Hh Hr) as [out Hout].
  destruct (parse_head _ _ _ _ _ _ Hout) as [body ->].
  exists body. now rewrite Hout, Hhead.
Qed.

(** X13.  A command without a [commands] attribute (or with an empty
    one) that is no multicommand is rendered by a single call: the output
    is its own fragment without backspaces, title and usage making six
    lines of it. *)
Theorem plain_command_output fuel prog cmd up level :
  default [] (commands cmd) = [] -> multicommand cmd = None ->
  let ctx := mkContext cmd up in
  _parse_recursively (S fuel) prog cmd up level
    = Ok (map strip (fragment prog ctx level)) /\
  List.length (map strip (fragment prog ctx level))
    = (6 + List.length (_make_description ctx) + List.length (_make_options ctx))%nat.
Proof.
  intros He Hm ctx. subst ctx. split.
  - rewrite parse_step. cbv zeta.
    unfold get_subcommands. cbn [command]. rewrite He, Hm.
    cbn [rbind dict_values map sorted extend_each]. reflexivity.
  - rewrite length_map. unfold fragment, _make_title, _make_usage.
    rewrite !length_app. simpl. lia.
Qed.

(** X14.  [generate_command_docs] imports at most once, and only after
    the configuration has passed its checks: either it raises
    [MKClickConfigException] or [ValueError] with the trace untouched, or
    both required options are present, the depth is readable, and the
    trace has grown by exactly the log line and the import of that
    module. *)
Theorem import_only_after_validation (block_options : gmap string string) tr :
  (snd (generate_command_docs block_options tr) = tr /\
   exists e, fst (generate_command_docs block_options tr) = Err e /\
             (e = ValueError \/ exists msg, e = MKClickConfigException msg)) \/
  (exists m c d,
      block_options !! "module" = Some m /\
      block_options !! "command" = Some c /\
      get_depth block_options tr = (Ok d, tr) /\
      snd (generate_command_docs block_options tr) = loaded tr m c).
Proof.
  destruct (block_options !! "module") as [m|] eqn:Hm.
  2:{ left. unfold generate_command_docs. simpl. rewrite Hm. simpl. eauto 6. }
  destruct (block_options !! "command") as [c|] eqn:Hc.
  2:{ left. unfold generate_command_docs. simpl. rewrite Hm, Hc. simpl. eauto 6. }
  rewrite (generate_present _ _ _ _ Hm Hc).
  unfold bind at 1 3 5. unfold get_depth.
  destruct (block_options !! "depth") as [text|].
  - destruct (int_of_str text) as [d|].
    + right. exists m, c, d. repeat split; try reflexivity.
      unfold ret, bind, lift. rewrite <- (load_command_trace m c tr).
      destruct (_load_command m c tr) as [[cmd|e] tr1]; reflexivity.
    + left. unfold raise. simpl. eauto.
  - right. exists m, c, 0. repeat split; try reflexivity.
    unfold ret, bind, lift. rewrite <- (load_command_trace m c tr).
    destruct (_load_command m c tr) as [[cmd|e] tr1]; reflexivity.
Qed.

(** X16.  [generate_command_docs] returns lines exactly when both
    required options are present, the depth is absent (then 0) or read by
    [int], the import yields a module whose attribute of the given name
    is a command, and the walk of that command from the root, titled with
    the configured name at the configured depth, returns those lines;
    the trace then holds the log line and the import. *)
Theorem generate_returns_the_walk (block_options : gmap string string) tr out tr' :
  generate_command_docs block_options tr = (Ok out, tr') <->
  exists m c d getattr cmd,
    block_options !! "module" = Some m /\
    block_options !! "command" = Some c /\
    match block_options !! "depth" with
    | None => d = 0
    | Some text => int_of_str text = Some d
    end /\
    import_ m [c] = ImportModule getattr /\
    getattr c = Some (ObjCommand cmd) /\
    tr' = loaded tr m c /\
    _parse_recursively recursion_limit c cmd None d = Ok out.
Proof.
  split.
  - intros H.
    apply generate_ok_inv in H as (m & c & d & cmd & Hm & Hc & Hd & Hload & Hp).
    apply load_command_ok in Hload as [(getattr & Hi & Ha) ->].
    exists m, c, d, getattr, cmd. repeat split; try assumption.
    unfold get_depth in Hd.
    destruct (block_options !! "depth") as [text|].
    + destruct (int_of_str text); [now injection Hd as -> | discriminate].
    + now injection Hd as ->.
  - intros (m & c & d & getattr & cmd & Hm & Hc & Hd & Hi & Ha & -> & Hp).
    rewrite (generate_present _ _ _ _ Hm Hc).
    assert (Hdepth : get_depth block_options tr = (Ok d, tr)).
    { unfold get_depth. destruct (block_options !! "depth") as [text|].
      - now rewrite Hd.
      - now subst d. }
    unfold bind at 1. rewrite Hdepth. unfold bind, lift.
    rewrite (proj2 (load_command_ok m c tr cmd (loaded tr m c))).
    + now rewrite Hp.
    + split; [exists getattr; auto | reflexivity].
Qed.

End EntryPoint.

(* ===================================================================== *)
(** ** The further properties on the sample tree *)
(* ===================================================================== *)

Section FurtherSamples.

Import Demo.

Lemma description_of_joined_lines_witness :
  let ctx := mkContext (leaf "notes" (Some ("First." +:+ String Py.LF "Second."))) None in
  help (command ctx) = Some (Py.join (String Py.LF EmptyString) ["First."; "Second."]) /\
  _make_description ctx = ["First."; "Second."; ""].
Proof.
  split; [reflexivity|].
  refine (description_of_joined_lines
            (mkContext (leaf "notes" (Some ("First." +:+ String Py.LF "Second."))) None)
            ["First."; "Second."] _ _ _ _).
  - reflexivity.
  - discriminate.
  - repeat constructor.
  - discriminate.
Defined.

Lemma options_first_and_last_dropped_witness :
  let ctx := mkContext add None in
  format_options ctx = Py.written ("Options:" :: ["  --verbose  Say more."; help_line]) /\
  _make_options ctx = ["Options:"; "```code"; "  --verbose  Say more."; "```"].
Proof.
  split; [reflexivity|].
  refine (options_first_and_last_dropped (mkContext add None) "Options:"
            ["  --verbose  Say more."; help_line] _ _).
  - reflexivity.
  - repeat constructor.
Defined.

Lemma negative_level_title_witness :
  -1 < 0 /\ (height main <= 3)%nat /\ resolved main = true /\
  exists body, _parse_recursively 3 "main" main None (-1) = Ok (" main" :: "" :: body).
Proof.
  split; [lia|]. split; [vm_compute; lia|]. split; [reflexivity|].
  destruct (negative_level_title 3 "main" main None (-1)) as (_ & body & H);
    [lia | vm_compute; lia | reflexivity |].
  exists body. exact H.
Defined.

Lemma lazy_lookup_in_declaration_order_witness :
  let get := fun n => dict_get [("add", add); ("zap", zap)] n in
  List.NoDup ["zap"; "add"] /\
  exists cs,
    _get_lazyload_commands (["zap"; "add"], get) (mkContext plugins None)
      = Ok (combine ["zap"; "add"] cs).
Proof.
  assert (Hnd : List.NoDup ["zap"; "add"]).
  { repeat constructor; simpl; intuition discriminate. }
  split; [exact Hnd|].
  destruct (lazy_lookup_in_declaration_order ["zap"; "add"]
              (fun n => dict_get [("add", add); ("zap", zap)] n)
              (mkContext plugins None) Hnd) as (cs & _ & H).
  - intros n [<-|[<-|[]]]; discriminate.
  - exists cs. exact H.
Defined.

Lemma walk_assertion_cause_witness :
  _parse_recursively 5 "broken" broken None 0 = Err AssertionError /\
  resolved broken = false.
Proof.
  split; [reflexivity|].
  apply (walk_assertion_cause 5 "broken" broken None 0). reflexivity.
Defined.

Lemma walk_outcome_stable_under_budget_witness :
  exists out,
    _parse_recursively 3 "main" main None 0 = Ok out /\
    Ok out <> Err RecursionError /\
    _parse_recursively (7 + 3) "main" main None 0 = Ok out.
Proof.
  eexists. split; [reflexivity|]. split; [discriminate|].
  apply (walk_outcome_stable_under_budget 3 7 "main" main None 0);
    [reflexivity | discriminate].
Defined.

Lemma plain_command_output_witness :
  default [] (commands add) = [] /\ multicommand add = None /\
  _parse_recursively 1 "add" add None 0
    = Ok (map strip (fragment "add" (mkContext add None) 0)).
Proof.
  split; [reflexivity|]. split; [reflexivity|].
  apply (plain_command_output 0 "add" add None 0); reflexivity.
Defined.

End FurtherSamples.
